(** * Portfolio Monte Carlo simulator: a shallow embedding and its properties

    The development follows [portfolio_monte_carlo.py].  The program is a
    Python script: a handful of module-level parameters, two functions
    ([get_yearly_returns], [growth_probability]) and a module-level
    simulation loop that fills the list [data].

    Numbers.  Every quantity the script computes with is a Python [float]
    (IEEE 754 binary64) or an [int] that is converted to one as soon as it
    meets a float.  The embedding is written once, over an interface
    [Arith] of the operations the script uses, and the interface has two
    instances:
    - [F64], Rocq's primitive binary64 floats, which round exactly as
      Python's floats do: this is the arithmetic the program runs on;
    - [Exact], the canonical rationals [Qc]: arithmetic without rounding,
      the reading under which the algebraic identities of the specification
      are meant.

    Failure.  A Python exception is a value [Raise e] of the result type
    [Res]; the module-level loop is a state-and-error computation over the
    script's variables, and the state survives a failure, as the variables
    of an interrupted script do.

    Libraries.  The script calls pandas, the [random] and [statistics]
    modules and matplotlib.  [pct_change] and [random.choice] are embedded
    as they compute; [float ** int], the selections of the random generator
    and the plots are parameters of the script. *)

From Stdlib Require Import List ZArith QArith Qcanon PrimFloat Uint63 String Lia Bool Arith.
From stdpp Require Import gmap strings.
Import ListNotations.

Set Default Proof Using "Type".
Set Warnings "-inexact-float".

(** ** Python exceptions and results *)

Inductive PyError : Type :=
| IndexError         (* pop from an empty list, random.choice of an empty sequence *)
| KeyError           (* a dict lookup that misses *)
| ZeroDivisionError  (* division by zero *)
| TypeError          (* an ordering comparison with None *)
| OverflowError      (* a float power out of range *)
| StatisticsError.   (* statistics.mean of no data *)

Inductive Res (A : Type) : Type :=
| Ok (a : A)
| Raise (e : PyError).
Arguments Ok {A} a.
Arguments Raise {A} e.

Definition res_bind {A B : Type} (r : Res A) (k : A -> Res B) : Res B :=
  match r with
  | Ok a => k a
  | Raise e => Raise e
  end.

Declare Scope res_scope.
Delimit Scope res_scope with res.
Notation "x <- r ;; k" := (res_bind r (fun x => k))
  (at level 20, r at level 99, k at level 200) : res_scope.

(** ** The arithmetic interface *)

Class Arith (num : Type) : Type := {
  add : num -> num -> num;
  sub : num -> num -> num;
  mul : num -> num -> num;
  div : num -> num -> num;          (* the quotient where the divisor is not zero *)
  ltb : num -> num -> bool;         (* x < y *)
  eqb : num -> num -> bool;         (* x == y *)
  of_int : Z -> num;                (* an int meeting a float *)
  nan : num                         (* the entry pandas writes where there is nothing *)
}.

(** [x > y] on floats is [y < x]. *)
Definition gtb {num : Type} `{Arith num} (x y : num) : bool := ltb y x.

(** Binary64, the arithmetic of Python's [float].  [of_int] is exact below
    2^53 in absolute value, which covers every count and length the script
    can hold in memory. *)
#[export] Instance F64 : Arith float := {
  add := PrimFloat.add;
  sub := PrimFloat.sub;
  mul := PrimFloat.mul;
  div := PrimFloat.div;
  ltb := PrimFloat.ltb;
  eqb := PrimFloat.eqb;
  of_int := fun z =>
    match z with
    | Zneg p => PrimFloat.opp (PrimFloat.of_uint63 (Uint63.of_Z (Zpos p)))
    | _ => PrimFloat.of_uint63 (Uint63.of_Z z)
    end;
  nan := PrimFloat.nan
}.

(** Exact rational arithmetic.  It has no not-a-number; the placeholder [0]
    stands where pandas writes one, and [get_yearly_returns] removes it. *)
#[export] Instance Exact : Arith Qc := {
  add := Qcplus;
  sub := Qcminus;
  mul := Qcmult;
  div := Qcdiv;
  ltb := fun x y => match Qccompare x y with Lt => true | _ => false end;
  eqb := fun x y => match Qccompare x y with Eq => true | _ => false end;
  of_int := fun z => Q2Qc (inject_Z z);
  nan := Q2Qc 0
}.

(** ** The program *)

Section Program.

Context {num : Type} `{Arith num}.

(** Python's [float ** int] goes through the C library's [pow] and raises
    OverflowError when the result is out of range.  No instance fixes the
    function; it is a parameter of the script, with the value it returns
    or the exception it raises. *)
Variable pow : num -> nat -> Res num.

(** The selections of the random generator, call by call: the [i]-th call
    of [random.choice] in a run, on a sequence of length [n], returns the
    element at index [seed i mod n].  CPython finds the index by rejection
    sampling on the raw bits of its generator; whatever the generator does,
    the calls of a run return the elements at some indices below the
    lengths, and [seed] stands for them. *)
Variable seed : nat -> nat.

(** The calls into matplotlib.  They assign no variable of the script;
    whether they raise is theirs to say.  [plot_trajectories] stands for
    lines 175-187 (the figure, one curve per trajectory, the labels), and
    [plot_histogram] for lines 194-196. *)
Variable plot_trajectories : list (list num) -> Res unit.
Variable plot_histogram : list num -> list num -> Res unit.

Local Open Scope res_scope.

(** *** Checked division *)

(** [x / y] on floats raises when the divisor is zero. *)
Definition py_div (x y : num) : Res num :=
  if eqb y (of_int 0) then Raise ZeroDivisionError else Ok (div x y).

(** [a / b] on ints: true division, a float. *)
Definition py_int_div (a b : Z) : Res num :=
  if Z.eqb b 0 then Raise ZeroDivisionError else Ok (div (of_int a) (of_int b)).

(** *** Assets and parameters *)

(** An asset as the script sees it: its ticker and the series
    [asset.history('max').Close.resample('Y').ffill()], one close per
    calendar year, oldest first. *)
Record Asset : Type := mkAsset {
  ticker : string;
  yearly_closes : list num
}.

(** The module-level parameters.  [PORTFOLIO] is a dict whose keys are
    Ticker objects, distinct as objects; it is read only by iteration, in
    insertion order, so it is the list of its items. *)
Record Params : Type := mkParams {
  TRIALS : nat;
  YEARS_TO_SIMULATE : nat;
  PORTFOLIO : list (Asset * num);
  INITIAL_INVESTMENT : num;
  BENCHMARK_ANNUAL_RETURN : num
}.

(** [INITIAL_INVESTMENT * (1 + BENCHMARK_ANNUAL_RETURN) ** YEARS_TO_SIMULATE]. *)
Definition benchmark_future_value (p : Params) : Res num :=
  x <- pow (add (of_int 1) (BENCHMARK_ANNUAL_RETURN p)) (YEARS_TO_SIMULATE p) ;;
  Ok (mul (INITIAL_INVESTMENT p) x).

(** *** get_yearly_returns *)

Fixpoint pct_change_from (prev : num) (prices : list num) : list num :=
  match prices with
  | [] => []
  | cur :: rest => sub (div cur prev) (of_int 1) :: pct_change_from cur rest
  end.

(** pandas' [Series.pct_change], a library call: the series divided, entry
    by entry, by itself shifted one place, minus 1, so the entry of an
    adjacent pair of closes is [p_curr / p_prev - 1]; the first entry,
    which has no predecessor, is not-a-number (the source's comment at
    [pop(0)] says so).  The result is as long as the series, and numpy's
    division does not raise. *)
Definition pct_change (prices : list num) : list num :=
  match prices with
  | [] => []
  | first :: rest => nan :: pct_change_from first rest
  end.

(** [list.pop(0)], keeping the list that remains. *)
Definition pop0 (l : list num) : Res (list num) :=
  match l with
  | [] => Raise IndexError
  | _ :: rest => Ok rest
  end.

Definition get_yearly_returns (asset : Asset) : Res (list num) :=
  let data := pct_change (yearly_closes asset) in
  data <- pop0 data ;;
  Ok data.

(** *** growth_probability *)

(** An ordering comparison; it raises when an operand is [None]. *)
Definition py_lt (x y : option num) : Res bool :=
  match x, y with
  | Some a, Some b => Ok (ltb a b)
  | _, _ => Raise TypeError
  end.

(** The chained comparison [lo < growth < hi]: [growth < hi] is evaluated
    only when [lo < growth] holds. *)
Definition chained_lt (lo : option num) (growth : num) (hi : option num) : Res bool :=
  b <- py_lt lo (Some growth) ;;
  if b then py_lt (Some growth) hi else Ok false.

(** One of the three [for growth in growth_data] loops, with its test. *)
Fixpoint count_loop (test : num -> Res bool) (growth_data : list num) (count : nat)
  : Res nat :=
  match growth_data with
  | [] => Ok count
  | growth :: rest =>
      b <- test growth ;;
      count_loop test rest (if b then S count else count)
  end.

Definition growth_probability (growth_data : list num)
    (min_growth_pct max_growth_pct : option num) : Res num :=
  count <-
    match min_growth_pct, max_growth_pct with
    | None, Some mx => count_loop (fun growth => Ok (ltb growth mx)) growth_data 0
    | Some mn, None => count_loop (fun growth => Ok (gtb growth mn)) growth_data 0
    | _, _ =>
        count_loop (fun growth => chained_lt min_growth_pct growth max_growth_pct)
                   growth_data 0
    end ;;
  q <- py_int_div (Z.of_nat count) (Z.of_nat (length growth_data)) ;;
  Ok (mul q (of_int 100)).

(** *** The module-level variables of the simulation *)

(** [yearly_returns] is a dict from ticker strings to return pools. *)
Definition py_getitem (d : gmap string (list num)) (key : string) : Res (list num) :=
  match d !! key with
  | Some v => Ok v
  | None => Raise KeyError
  end.

(** The loop [for asset in PORTFOLIO.keys(): yearly_returns[asset.ticker] =
    get_yearly_returns(asset)], from the dict built so far. *)
Fixpoint build_yearly_returns (items : list (Asset * num))
    (yearly_returns : gmap string (list num)) : Res (gmap string (list num)) :=
  match items with
  | [] => Ok yearly_returns
  | (asset, _) :: rest =>
      returns <- get_yearly_returns asset ;;
      build_yearly_returns rest (<[ticker asset := returns]> yearly_returns)
  end.

Definition yearly_returns (p : Params) : Res (gmap string (list num)) :=
  build_yearly_returns (PORTFOLIO p) ∅.

(** The variables the simulation loop assigns, and [rng], the number of
    calls of [random.choice] made so far. *)
Record State : Type := mkState {
  data : list (list num);
  current_sim_data : list num;
  portfolio_value : num;
  value_to_add : num;
  rng : nat
}.

Definition set_data (s : State) (v : list (list num)) : State :=
  mkState v (current_sim_data s) (portfolio_value s) (value_to_add s) (rng s).
Definition set_current_sim_data (s : State) (v : list num) : State :=
  mkState (data s) v (portfolio_value s) (value_to_add s) (rng s).
Definition set_portfolio_value (s : State) (v : num) : State :=
  mkState (data s) (current_sim_data s) v (value_to_add s) (rng s).
Definition set_value_to_add (s : State) (v : num) : State :=
  mkState (data s) (current_sim_data s) (portfolio_value s) v (rng s).
Definition set_rng (s : State) (v : nat) : State :=
  mkState (data s) (current_sim_data s) (portfolio_value s) (value_to_add s) v.

(** A statement of the loop: it reads and writes the variables and may
    raise; the variables keep the values they had when it raised. *)
Definition M (A : Type) : Type := State -> Res A * State.

Definition ret {A : Type} (a : A) : M A := fun s => (Ok a, s).

Definition bind {A B : Type} (m : M A) (k : A -> M B) : M B :=
  fun s =>
    match m s with
    | (Ok a, s') => k a s'
    | (Raise e, s') => (Raise e, s')
    end.

Definition get {A : Type} (f : State -> A) : M A := fun s => (Ok (f s), s).
Definition modify (f : State -> State) : M unit := fun s => (Ok tt, f s).
Definition lift {A : Type} (r : Res A) : M A := fun s => (r, s).

Declare Scope sim_scope.
Delimit Scope sim_scope with sim.
Notation "x <- m ;; k" := (bind m (fun x => k))
  (at level 20, m at level 99, k at level 200) : sim_scope.
Notation "m ;;; k" := (bind m (fun _ => k))
  (at level 99, k at level 200, right associativity) : sim_scope.

Fixpoint for_each {A : Type} (l : list A) (body : A -> M unit) : M unit :=
  match l with
  | [] => ret tt
  | x :: rest => bind (body x) (fun _ => for_each rest body)
  end.

(** [random.choice(seq)]: IndexError on an empty sequence, and otherwise
    the element at the index the generator selects for this call. *)
Definition random_choice (seq : list num) : M num :=
  fun s =>
    match seq with
    | [] => (Raise IndexError, s)
    | x :: _ => (Ok (nth (seed (rng s) mod length seq) seq x), set_rng s (S (rng s)))
    end.

(** *** The simulation loop *)

Section Simulation.

Variable p : Params.
Variable returns_of : gmap string (list num).   (* the dict [yearly_returns] *)

Local Open Scope sim_scope.

(** The body of [for asset in PORTFOLIO]. *)
Definition asset_body (year : nat) (item : Asset * num) : M unit :=
  let asset := fst item in
  let weight := snd item in
  if Nat.eqb year 0 then
    modify (fun s => set_portfolio_value s
              (add (portfolio_value s) (mul (INITIAL_INVESTMENT p) weight)))
  else
    asset_value <- get (fun s => mul (portfolio_value s) weight) ;;
    pool <- lift (py_getitem returns_of (ticker asset)) ;;
    random_return <- random_choice pool ;;
    modify (fun s => set_value_to_add s
              (add (value_to_add s) (mul asset_value random_return))).

(** The body of [for year in range(YEARS_TO_SIMULATE + 1)]. *)
Definition year_body (year : nat) : M unit :=
  modify (fun s => set_value_to_add s (of_int 0)) ;;;
  for_each (PORTFOLIO p) (asset_body year) ;;;
  modify (fun s => set_portfolio_value s (add (portfolio_value s) (value_to_add s))) ;;;
  modify (fun s => set_current_sim_data s (current_sim_data s ++ [portfolio_value s])).

(** The body of [for _ in range(TRIALS)]. *)
Definition trial_body : M unit :=
  modify (fun s => set_current_sim_data s []) ;;;
  modify (fun s => set_portfolio_value s (of_int 0)) ;;;
  for_each (seq 0 (YEARS_TO_SIMULATE p + 1)) year_body ;;;
  modify (fun s => set_data s (data s ++ [current_sim_data s])).

Definition simulation : M unit :=
  for_each (seq 0 (TRIALS p)) (fun _ => trial_body).

End Simulation.

(** The variables as the loop finds them: [data = []]; the others are
    assigned before they are read, and [random.choice] has not been called. *)
Definition initial_state : State := mkState [] [] (of_int 0) (of_int 0) 0.

(** *** After the simulation *)

(** [sim_data[-1]]. *)
Definition py_last (l : list num) : Res num :=
  match last l with
  | Some x => Ok x
  | None => Raise IndexError
  end.

(** [[sim_data[-1] / INITIAL_INVESTMENT * 100 - 100 for sim_data in data]]. *)
Fixpoint final_growths (p : Params) (data : list (list num)) : Res (list num) :=
  match data with
  | [] => Ok []
  | sim_data :: rest =>
      x <- py_last sim_data ;;
      q <- py_div x (INITIAL_INVESTMENT p) ;;
      growths <- final_growths p rest ;;
      Ok (sub (mul q (of_int 100)) (of_int 100) :: growths)
  end.

(** [(sim_data - INITIAL_INVESTMENT) / INITIAL_INVESTMENT * 100] on the numpy
    array of a trajectory: element by element.  numpy's division does not
    raise on a zero divisor (binary64 gives an infinity or a not-a-number);
    the facts below about exact arithmetic assume the divisor is not
    zero. *)
Definition percent_increase (p : Params) (sim_data : list num) : list num :=
  map (fun v => mul (div (sub v (INITIAL_INVESTMENT p)) (INITIAL_INVESTMENT p))
                    (of_int 100))
      sim_data.

(** [final_growths.count(value)], [value] being the item at position [i] of
    the list: [list.count] counts the items that are the object [value]
    itself or compare equal to it, and the items of [final_growths] are
    objects of their own. *)
Definition list_count (l : list num) (i : nat) (value : num) : nat :=
  length (List.filter (fun jx => Nat.eqb (fst jx) i || eqb (snd jx) value)
                      (combine (seq 0 (length l)) l)).

(** [[final_growths.count(value) for value in final_growths]]. *)
Definition final_growth_counts (final_growths : list num) : list nat :=
  map (fun iv => list_count final_growths (fst iv) (snd iv))
      (combine (seq 0 (length final_growths)) final_growths).

(** [np.array(final_growth_counts) / TRIALS * 100]. *)
Definition final_growth_frequencies (p : Params) (counts : list nat) : list num :=
  map (fun c => mul (div (of_int (Z.of_nat c)) (of_int (Z.of_nat (TRIALS p))))
                    (of_int 100))
      counts.

(** The four prints of lines 199-202.  [statistics.mean] raises
    StatisticsError on no data; on data, [mean], [median], [min], [max],
    [round] and [print] compute on floats without raising, and assign no
    variable. *)
Definition print_statistics (final_growths : list num) : Res unit :=
  match final_growths with
  | [] => Raise StatisticsError
  | _ :: _ => Ok tt
  end.

(** [growth_probability(final_growths, benchmark_future_value, None)], from
    the value the variable [benchmark_future_value] holds. *)
Definition outperformance_probability (benchmark_future_value : num)
    (final_growths : list num) : Res num :=
  growth_probability final_growths (Some benchmark_future_value) None.

(** What the script has computed when it has printed its last line. *)
Record Report : Type := mkReport {
  report_data : list (list num);
  report_final_growths : list num;
  report_outperformance_probability : num
}.

(** The matrix [data] the simulation leaves, when it completes. *)
Definition simulated_data (p : Params) : Res (list (list num)) :=
  returns_of <- yearly_returns p ;;
  match simulation p returns_of initial_state with
  | (Ok _, s) => Ok (data s)
  | (Raise e, _) => Raise e
  end.

(** The script, statement by statement in the order of the source: the
    benchmark (lines 82-83), the pools and the simulation (145-171), the
    curves (175-187), the final growths and the weights (190-192), the
    histogram (194-196), the statistics (199-202), the probability of
    outperforming (204-205). *)
Definition script (p : Params) : Res Report :=
  benchmark <- benchmark_future_value p ;;
  data <- simulated_data p ;;
  _ <- plot_trajectories (map (percent_increase p) data) ;;
  growths <- final_growths p data ;;
  let frequencies := final_growth_frequencies p (final_growth_counts growths) in
  _ <- plot_histogram growths frequencies ;;
  _ <- print_statistics growths ;;
  prob <- outperformance_probability benchmark growths ;;
  Ok (mkReport data growths prob).

End Program.

Arguments Asset num : clear implicits.
Arguments Params num : clear implicits.
Arguments State num : clear implicits.
Arguments Report num : clear implicits.

(** ** What the specification counts *)

Section Reading.

Context {num : Type} `{Arith num}.

(** [sum(PORTFOLIO.values())]. *)
Definition weights_sum (p : Params num) : num :=
  fold_left add (map snd (PORTFOLIO p)) (of_int 0).

(** The number of elements of the distribution that pass a test. *)
Definition count_if (test : num -> bool) (dist : list num) : nat :=
  length (List.filter test dist).

(** [count / trials * 100] for a distribution that is not empty. *)
Definition percentage (count trials : nat) : num :=
  mul (div (of_int (Z.of_nat count)) (of_int (Z.of_nat trials))) (of_int 100).

End Reading.

(** ** Other parameters and series *)

Section Reporting.

Context {num : Type} `{Arith num}.

(** The parameters [p] with another initial investment. *)
Definition with_investment (p : Params num) (v : num) : Params num :=
  mkParams (TRIALS p) (YEARS_TO_SIMULATE p) (PORTFOLIO p) v
           (BENCHMARK_ANNUAL_RETURN p).

(** The parameters [p] with another number of trials. *)
Definition with_trials (p : Params num) (n : nat) : Params num :=
  mkParams n (YEARS_TO_SIMULATE p) (PORTFOLIO p) (INITIAL_INVESTMENT p)
           (BENCHMARK_ANNUAL_RETURN p).

(** The closes that start at [first] and grow by the returns [rs]. *)
Fixpoint prices_from (first : num) (rs : list num) : list num :=
  match rs with
  | [] => [first]
  | r :: rest => first :: prices_from (mul first (add (of_int 1) r)) rest
  end.

End Reporting.

(** ** Concrete runs *)

(** A generator whose call number [n] selects [n]. *)
Definition linear_seed (n : nat) : nat := n.

(** A generator for a run of [years] years on [assets] assets: the call made
    for asset [i] in year [y] of trial [t] selects [choice t y i]. *)
Definition seed_of_choices (years assets : nat) (choice : nat -> nat -> nat -> nat)
    (n : nat) : nat :=
  choice (n / assets / years) (S ((n / assets) mod years)) (n mod assets).

(** Repeated multiplication, standing where the runs below need a value for
    [**]; it never raises. *)
Definition iter_pow (x : float) (n : nat) : Res float :=
  Ok (Nat.iter n (PrimFloat.mul x) 1%float).

(** Plots that never raise. *)
Definition plot_curves_quietly (curves : list (list float)) : Res unit := Ok tt.
Definition plot_bars_quietly (growths weights : list float) : Res unit := Ok tt.

Definition ia_daq : Asset float := mkAsset "0P0000ZEJ5.TO" [100; 110; 99; 120]%float.
Definition aapl : Asset float := mkAsset "AAPL" [50; 55; 66]%float.

(** [portfolio2 = {ia_daq:0.7, aapl:0.3}]. *)
Definition portfolio2 : list (Asset float * float) :=
  [(ia_daq, 0.7%float); (aapl, 0.3%float)].

(** Two trials of two years with the script's own parameters. *)
Definition demo : Params float := mkParams 2 2 portfolio2 100%float 0.1188%float.

Definition demo_returns : gmap string (list float) :=
  match yearly_returns demo with
  | Ok m => m
  | Raise _ => ∅
  end.

Definition demo_state : State float :=
  snd (simulation linear_seed demo demo_returns initial_state).

(** [portfolio2] with an initial investment of 3 and no year to simulate. *)
Definition three_units : Params float := mkParams 1 0 portfolio2 3%float 0.1188%float.

(** Weights of 7/16 and 9/16, which binary64 holds exactly, and 1000.1
    invested, with no year to simulate. *)
Definition sixteenths : Params float :=
  mkParams 1 0 [(ia_daq, 0.4375%float); (aapl, 0.5625%float)] 1000.1%float 0.1188%float.

(** One asset that holds the whole portfolio, one trial, one year. *)
Definition one_asset : Params float :=
  mkParams 1 1 [(mkAsset "AAPL" [100; 110]%float, 1%float)] 100%float 0.1188%float.

(** [portfolio2]'s weights on two assets with two closes each, whose only
    returns, 0.5 and -0.25, binary64 holds exactly; one trial of one year. *)
Definition two_closes : Params float :=
  mkParams 1 1
    [(mkAsset "0P0000ZEJ5.TO" [100; 150]%float, 0.7%float);
     (mkAsset "AAPL" [100; 75]%float, 0.3%float)]
    100%float 0.1188%float.

(** An asset with a single yearly close, hence an empty pool. *)
Definition eth : Asset float := mkAsset "ETH-USD" [100]%float.

Definition short_history (years : nat) : Params float :=
  mkParams 1 years [(eth, 1%float)] 100%float 0.1188%float.

(** An asset for which the data provider has no close at all. *)
Definition delisted : Asset float := mkAsset "GONE" [].

Definition no_history : Params float :=
  mkParams 1 1 [(aapl, 0.5%float); (delisted, 0.5%float)] 100%float 0.1188%float.

(** The portfolio of [demo] in exact arithmetic. *)
Definition demo_exact : Params Qc :=
  mkParams 2 2
    [(mkAsset "0P0000ZEJ5.TO" [Q2Qc 100; Q2Qc 110; Q2Qc 99; Q2Qc 120], Q2Qc (7 # 10));
     (mkAsset "AAPL" [Q2Qc 50; Q2Qc 55; Q2Qc 66], Q2Qc (3 # 10))]
    (Q2Qc 100) (Q2Qc (1188 # 10000)).

Definition demo_exact_returns : gmap string (list Qc) :=
  match yearly_returns demo_exact with
  | Ok m => m
  | Raise _ => ∅
  end.

Definition demo_exact_state : State Qc :=
  snd (simulation linear_seed demo_exact demo_exact_returns initial_state).

(** The specification's names for the failures.  The script declares no
    exception class; each name is read as the built-in exception raised at
    the place the name describes. *)
Inductive ErrorKind : Type :=
| InsufficientDataError
| EmptyReturnPoolError
| InvalidRangeError
| EmptyDistributionError.

Definition raised_as (k : ErrorKind) : PyError :=
  match k with
  | InsufficientDataError => IndexError        (* data.pop(0) *)
  | EmptyReturnPoolError => IndexError         (* random.choice(pool) *)
  | InvalidRangeError => TypeError             (* None < growth *)
  | EmptyDistributionError => ZeroDivisionError (* count / len(growth_data) *)
  end.

(** ** The simulation loop, statement by statement *)

Section SimulationFacts.

Context {num : Type} `{Arith num}.
Variable seed : nat -> nat.
Variable p : Params num.
Variable returns_of : gmap string (list num).

Local Open Scope res_scope.

(** The returns one year draws, asset by asset, from call number [pos] of
    [random.choice] on. *)
Fixpoint draw_returns (items : list (Asset num * num)) (pos : nat) : Res (list num) :=
  match items with
  | [] => Ok []
  | item :: rest =>
      pool <- py_getitem returns_of (ticker (fst item)) ;;
      match pool with
      | [] => Raise IndexError
      | x :: _ =>
          rs <- draw_returns rest (S pos) ;;
          Ok (nth (seed pos mod length pool) pool x :: rs)
      end
  end.

(** [value_to_add] after the assets [items] have drawn the returns [rs],
    from the value [acc]: each asset adds [(value * weight) * return]. *)
Definition year_delta (value : num) (items : list (Asset num * num)) (rs : list num)
    (acc : num) : num :=
  fold_left (fun a ir => add a (mul (mul value (snd (fst ir))) (snd ir)))
            (combine items rs) acc.

(** The portfolio value of year 0: the initial investment, asset by asset. *)
Definition year0_value : num :=
  add (fold_left (fun a item => add a (mul (INITIAL_INVESTMENT p) (snd item)))
                 (PORTFOLIO p) (of_int 0))
      (of_int 0).

(** The portfolio value after a year that starts at [value] and draws [rs]. *)
Definition step_value (value : num) (rs : list num) : num :=
  add value (year_delta value (PORTFOLIO p) rs (of_int 0)).

(** The values of [k] consecutive years after a year that ended at [value],
    [random.choice] having been called [pos] times. *)
Fixpoint years_from (value : num) (pos k : nat) : Res (list num) :=
  match k with
  | 0 => Ok []
  | S k' =>
      rs <- draw_returns (PORTFOLIO p) pos ;;
      vs <- years_from (step_value value rs) (pos + length (PORTFOLIO p)) k' ;;
      Ok (step_value value rs :: vs)
  end.

(** One trial's trajectory, [random.choice] having been called [pos] times. *)
Definition trajectory (pos : nat) : Res (list num) :=
  vs <- years_from year0_value pos (YEARS_TO_SIMULATE p) ;;
  Ok (year0_value :: vs).

(** The trajectories of [k] consecutive trials. *)
Fixpoint trials_from (pos k : nat) : Res (list (list num)) :=
  match k with
  | 0 => Ok []
  | S k' =>
      t <- trajectory pos ;;
      ts <- trials_from (pos + YEARS_TO_SIMULATE p * length (PORTFOLIO p)) k' ;;
      Ok (t :: ts)
  end.

(** Whether a year's draws fail, and how: the first asset, in portfolio
    order, whose pool is missing or empty decides.  The number of calls made
    so far plays no part. *)
Fixpoint draw_error (items : list (Asset num * num)) : option PyError :=
  match items with
  | [] => None
  | item :: rest =>
      match returns_of !! ticker (fst item) with
      | None => Some KeyError
      | Some [] => Some IndexError
      | Some (_ :: _) => draw_error rest
      end
  end.

(** A trial draws only in the years after year 0. *)
Definition trial_error : option PyError :=
  if Nat.eqb (YEARS_TO_SIMULATE p) 0 then None else draw_error (PORTFOLIO p).

(** [rs] are the returns drawn for [items] from call number [pos] on: the
    [i]-th asset's return is the element of its pool at the index that
    call number [pos + i] selects. *)
Definition drawn_from (pos : nat) (items : list (Asset num * num)) (rs : list num)
  : Prop :=
  length rs = length items
  /\ forall i item, nth_error items i = Some item ->
       exists pool, returns_of !! ticker (fst item) = Some pool
                    /\ pool <> []
                    /\ nth_error rs i
                       = nth_error pool (seed (pos + i) mod length pool).

(** Every asset of the portfolio has a pool, and no pool is empty. *)
Definition pools_ready : Prop :=
  Forall (fun item : Asset num * num =>
            exists pool, returns_of !! ticker (fst item) = Some pool /\ pool <> [])
         (PORTFOLIO p).

Lemma asset_loop_year0 (items : list (Asset num * num)) (s : State num) :
  for_each items (asset_body seed p returns_of 0) s
  = (Ok tt,
     set_portfolio_value s
       (fold_left (fun a item => add a (mul (INITIAL_INVESTMENT p) (snd item)))
                  items (portfolio_value s))).
Proof.
  revert s. induction items as [|item items IH]; intros s; simpl.
  - unfold ret. destruct s; reflexivity.
  - unfold bind. simpl. rewrite IH. destruct s; reflexivity.
Qed.

Lemma asset_loop_later (year : nat) (items : list (Asset num * num)) (s : State num) :
  year <> 0 ->
  let '(r, s') := for_each items (asset_body seed p returns_of year) s in
  data s' = data s /\ current_sim_data s' = current_sim_data s
  /\ portfolio_value s' = portfolio_value s
  /\ match draw_returns items (rng s) with
     | Ok rs => r = Ok tt
                /\ value_to_add s' = year_delta (portfolio_value s) items rs (value_to_add s)
                /\ rng s' = rng s + length items
     | Raise e => r = Raise e
     end.
Proof.
  intros Hy. revert s. induction items as [|item items IH]; intros s; simpl.
  - unfold year_delta. simpl. repeat split; lia.
  - unfold asset_body at 1. apply Nat.eqb_neq in Hy. rewrite Hy.
    unfold bind, get, lift, py_getitem. simpl.
    destruct (returns_of !! ticker (fst item)) as [pool|]; simpl; [|tauto].
    unfold random_choice.
    destruct pool as [|x pool]; simpl; [tauto|].
    unfold modify.
    match goal with |- context [for_each items _ ?s0] => specialize (IH s0) end.
    destruct (for_each items _ _) as [r s'] in IH |- *.
    destruct IH as (Hd & Hc & Hp & Hrs). simpl in Hd, Hc, Hp, Hrs.
    rewrite Hd, Hc, Hp. repeat split.
    destruct (draw_returns items (S (rng s))) as [rs|e]; simpl.
    + destruct Hrs as (-> & Hv & Hr). repeat split.
      * rewrite Hv. reflexivity.
      * rewrite Hr. lia.
    + exact Hrs.
Qed.

Lemma year_body_later (year : nat) (s : State num) :
  year <> 0 ->
  let '(r, s') := year_body seed p returns_of year s in
  data s' = data s
  /\ match draw_returns (PORTFOLIO p) (rng s) with
     | Ok rs => r = Ok tt
                /\ current_sim_data s'
                   = current_sim_data s ++ [step_value (portfolio_value s) rs]
                /\ portfolio_value s' = step_value (portfolio_value s) rs
                /\ rng s' = rng s + length (PORTFOLIO p)
     | Raise e => r = Raise e
     end.
Proof.
  intros Hy. unfold year_body, bind, modify. simpl.
  pose proof (asset_loop_later year (PORTFOLIO p)
                (set_value_to_add s (of_int 0)) Hy) as L.
  destruct (for_each (PORTFOLIO p) _ _) as [r s1].
  destruct L as (Hd & Hc & Hp & Hrs). simpl in Hd, Hc, Hp, Hrs.
  destruct (draw_returns (PORTFOLIO p) (rng s)) as [rs|e].
  - destruct Hrs as (-> & Hv & Hr). simpl.
    unfold step_value. rewrite Hd, Hc, Hp, Hv, Hr. repeat split.
  - rewrite Hrs. split; [exact Hd | reflexivity].
Qed.

Lemma year_body_year0 (s : State num) :
  year_body seed p returns_of 0 s
  = (Ok tt,
     let v := add (fold_left (fun a item => add a (mul (INITIAL_INVESTMENT p) (snd item)))
                             (PORTFOLIO p) (portfolio_value s)) (of_int 0) in
     mkState (data s) (current_sim_data s ++ [v]) v (of_int 0) (rng s)).
Proof.
  unfold year_body, bind, modify. rewrite asset_loop_year0. reflexivity.
Qed.

Lemma years_loop (k first : nat) (s : State num) :
  first <> 0 ->
  let '(r, s') := for_each (seq first k) (year_body seed p returns_of) s in
  data s' = data s
  /\ match years_from (portfolio_value s) (rng s) k with
     | Ok vs => r = Ok tt
                /\ current_sim_data s' = current_sim_data s ++ vs
                /\ rng s' = rng s + k * length (PORTFOLIO p)
     | Raise e => r = Raise e
     end.
Proof.
  revert first s. induction k as [|k IH]; intros first s Hf; simpl.
  - rewrite app_nil_r. repeat split. lia.
  - unfold bind.
    pose proof (year_body_later first s Hf) as L.
    destruct (year_body seed p returns_of first s) as [r1 s1].
    destruct L as (Hd & Hrs).
    destruct (draw_returns (PORTFOLIO p) (rng s)) as [rs|e]; simpl.
    + destruct Hrs as (-> & Hc & Hp & Hr).
      specialize (IH (S first) s1 (Nat.neq_succ_0 first)).
      destruct (for_each (seq (S first) k) _ s1) as [r2 s2].
      destruct IH as (Hd2 & Hvs). rewrite Hp, Hr in Hvs.
      split; [congruence|].
      destruct (years_from _ _ k) as [vs|e]; simpl.
      * destruct Hvs as (-> & Hc2 & Hr2). repeat split.
        -- rewrite Hc2, Hc, <- app_assoc. reflexivity.
        -- rewrite Hr2. lia.
      * exact Hvs.
    + rewrite Hrs. split; [exact Hd | reflexivity].
Qed.

Lemma trial_body_run (s : State num) :
  let '(r, s') := trial_body seed p returns_of s in
  match trajectory (rng s) with
  | Ok t => r = Ok tt /\ data s' = data s ++ [t]
            /\ rng s' = rng s + YEARS_TO_SIMULATE p * length (PORTFOLIO p)
  | Raise e => r = Raise e /\ data s' = data s
  end.
Proof.
  unfold trial_body, bind, modify. simpl.
  rewrite Nat.add_1_r. simpl seq. simpl for_each. unfold bind at 1.
  rewrite year_body_year0. simpl.
  match goal with |- context [for_each _ _ ?s0] =>
    pose proof (years_loop (YEARS_TO_SIMULATE p) 1 s0 (Nat.neq_succ_0 0)) as L
  end.
  destruct (for_each (seq 1 _) _ _) as [r1 s1].
  destruct L as (Hd & Hvs). simpl in Hd, Hvs.
  unfold trajectory. fold year0_value in Hvs.
  destruct (years_from year0_value (rng s) _) as [vs|e]; simpl.
  - destruct Hvs as (-> & Hc & Hr). simpl. rewrite Hd, Hc, Hr. repeat split.
  - subst r1. split; [reflexivity | exact Hd].
Qed.

Lemma draw_returns_outcome (items : list (Asset num * num)) (pos : nat) :
  match draw_error items with
  | Some e => draw_returns items pos = Raise e
  | None => exists rs, draw_returns items pos = Ok rs /\ drawn_from pos items rs
  end.
Proof.
  revert pos. induction items as [|item items IH]; intros pos;
    cbn [draw_returns draw_error].
  - exists []. split; [reflexivity|]. split; [reflexivity|].
    intros [|i] item Hi; discriminate.
  - unfold py_getitem.
    destruct (returns_of !! ticker (fst item)) as [[|x pool]|] eqn:E;
      cbn [res_bind]; [reflexivity| |reflexivity].
    specialize (IH (S pos)).
    destruct (draw_error items) as [e|].
    + rewrite IH. reflexivity.
    + destruct IH as (rs & -> & Hlen & Hrs). cbn [res_bind].
      eexists. split; [reflexivity|].
      split; [cbn [length]; now rewrite Hlen|].
      intros [|i] item' Hi; simpl in Hi.
      * injection Hi as <-. exists (x :: pool). rewrite E, Nat.add_0_r.
        split; [reflexivity|]. split; [discriminate|].
        cbn [nth_error]. symmetry. apply nth_error_nth'.
        apply Nat.mod_upper_bound. discriminate.
      * destruct (Hrs i item' Hi) as (pool' & Hp & Hne & Hn).
        exists pool'. split; [exact Hp|]. split; [exact Hne|].
        cbn [nth_error]. rewrite Hn. do 3 f_equal. lia.
Qed.

Lemma years_from_length (k : nat) (value : num) (pos : nat) (vs : list num) :
  years_from value pos k = Ok vs -> length vs = k.
Proof.
  revert value pos vs. induction k as [|k IH]; intros value pos vs; simpl.
  - now intros [= <-].
  - destruct (draw_returns (PORTFOLIO p) pos) as [rs|e]; simpl; [|discriminate].
    destruct (years_from _ _ k) as [vs'|e] eqn:E; simpl; [|discriminate].
    intros [= <-]. simpl. f_equal. eapply IH, E.
Qed.

Lemma years_from_outcome (k : nat) (value : num) (pos : nat) :
  match (if Nat.eqb k 0 then None else draw_error (PORTFOLIO p)) with
  | Some e => years_from value pos k = Raise e
  | None => exists vs, years_from value pos k = Ok vs
  end.
Proof.
  revert value pos. induction k as [|k IH]; intros value pos; simpl.
  - now exists [].
  - pose proof (draw_returns_outcome (PORTFOLIO p) pos) as D.
    destruct (draw_error (PORTFOLIO p)) as [e|].
    + rewrite D. reflexivity.
    + destruct D as (rs & -> & _). simpl.
      specialize (IH (step_value value rs) (pos + length (PORTFOLIO p))).
      destruct (Nat.eqb k 0); destruct IH as (vs & ->); simpl; eauto.
Qed.

Lemma trajectory_outcome (pos : nat) :
  match trial_error with
  | Some e => trajectory pos = Raise e
  | None => exists t, trajectory pos = Ok t
  end.
Proof.
  unfold trial_error, trajectory.
  pose proof (years_from_outcome (YEARS_TO_SIMULATE p) year0_value pos) as Y.
  destruct (if Nat.eqb (YEARS_TO_SIMULATE p) 0 then None else draw_error (PORTFOLIO p))
    as [e|].
  - rewrite Y. reflexivity.
  - destruct Y as (vs & ->). simpl. eauto.
Qed.

Lemma trials_from_outcome (k pos : nat) :
  match (if Nat.eqb k 0 then None else trial_error) with
  | Some e => trials_from pos k = Raise e
  | None => exists ts, trials_from pos k = Ok ts
  end.
Proof.
  revert pos. induction k as [|k IH]; intros pos; simpl.
  - now exists [].
  - pose proof (trajectory_outcome pos) as T.
    destruct trial_error as [e|].
    + rewrite T. reflexivity.
    + destruct T as (t & ->). simpl.
      specialize (IH (pos + YEARS_TO_SIMULATE p * length (PORTFOLIO p))).
      destruct (Nat.eqb k 0); destruct IH as (ts & ->); simpl; eauto.
Qed.

Lemma trials_loop (k first : nat) (s : State num) :
  let '(r, s') :=
    for_each (seq first k) (fun _ => trial_body seed p returns_of) s in
  match trials_from (rng s) k with
  | Ok ts => r = Ok tt /\ data s' = data s ++ ts
  | Raise e => r = Raise e /\ data s' = data s
  end.
Proof.
  revert first s. induction k as [|k IH]; intros first s; simpl.
  - rewrite app_nil_r. split; reflexivity.
  - unfold bind.
    pose proof (trial_body_run s) as T.
    destruct (trial_body seed p returns_of s) as [r1 s1].
    pose proof (trajectory_outcome (rng s)) as O.
    destruct (trajectory (rng s)) as [t|e]; simpl.
    + destruct T as (-> & Hd & Hr).
      specialize (IH (S first) s1).
      destruct (for_each (seq (S first) k) _ s1) as [r2 s2].
      rewrite Hr in IH.
      pose proof (trials_from_outcome k
                    (rng s + YEARS_TO_SIMULATE p * length (PORTFOLIO p))) as K.
      destruct trial_error as [e|]; [discriminate O|].
      replace (if Nat.eqb k 0 then None else None) with (@None PyError) in K
        by (destruct (Nat.eqb k 0); reflexivity).
      destruct K as (ts & Hts). rewrite Hts in IH |- *. simpl.
      destruct IH as (-> & Hd2). split; [reflexivity|].
      rewrite Hd2, Hd, <- app_assoc. reflexivity.
    + destruct T as (-> & Hd). split; [reflexivity | exact Hd].
Qed.

Lemma years_from_steps (k : nat) (value : num) (pos : nat) (vs : list num) :
  years_from value pos k = Ok vs ->
  forall j, j < k ->
  exists old new rs,
    nth_error (value :: vs) j = Some old
    /\ nth_error (value :: vs) (S j) = Some new
    /\ draw_returns (PORTFOLIO p) (pos + j * length (PORTFOLIO p)) = Ok rs
    /\ new = step_value old rs.
Proof.
  revert value pos vs. induction k as [|k IH]; intros value pos vs Hvs j Hj; [lia|].
  cbn [years_from] in Hvs.
  destruct (draw_returns (PORTFOLIO p) pos) as [rs|e] eqn:D; cbn [res_bind] in Hvs;
    [|discriminate].
  destruct (years_from _ _ k) as [vs'|e] eqn:E; cbn [res_bind] in Hvs; [|discriminate].
  injection Hvs as <-.
  destruct j as [|j].
  - exists value, (step_value value rs), rs. rewrite Nat.add_0_r.
    repeat split. exact D.
  - destruct (IH _ _ _ E j ltac:(lia)) as (old & new & rs' & Ho & Hn & Hd & Hs).
    exists old, new, rs'. cbn [nth_error] in Ho, Hn |- *.
    repeat split; try assumption.
    rewrite <- Hd. f_equal. lia.
Qed.

Lemma trials_from_length (k pos : nat) (ts : list (list num)) :
  trials_from pos k = Ok ts -> length ts = k.
Proof.
  revert pos ts. induction k as [|k IH]; intros pos ts; cbn [trials_from].
  - now intros [= <-].
  - destruct (trajectory pos) as [t|e]; cbn [res_bind]; [|discriminate].
    destruct (trials_from _ k) as [ts'|e] eqn:E; cbn [res_bind]; [|discriminate].
    intros [= <-]. simpl. f_equal. eapply IH, E.
Qed.

Lemma trials_from_nth (k pos : nat) (ts : list (list num)) :
  trials_from pos k = Ok ts ->
  forall t traj, nth_error ts t = Some traj ->
  trajectory (pos + t * (YEARS_TO_SIMULATE p * length (PORTFOLIO p))) = Ok traj.
Proof.
  revert pos ts. induction k as [|k IH]; intros pos ts; cbn [trials_from].
  - intros [= <-] [|t] traj Ht; discriminate.
  - destruct (trajectory pos) as [t0|e] eqn:T; cbn [res_bind]; [|discriminate].
    destruct (trials_from _ k) as [ts'|e] eqn:E; cbn [res_bind]; [|discriminate].
    intros [= <-] [|t] traj Ht; cbn [nth_error] in Ht.
    + injection Ht as <-. rewrite <- T. f_equal. lia.
    + rewrite <- (IH _ _ E t traj Ht). f_equal. lia.
Qed.

Lemma trajectory_shape (pos : nat) (traj : list num) :
  trajectory pos = Ok traj ->
  exists vs, traj = year0_value :: vs
             /\ years_from year0_value pos (YEARS_TO_SIMULATE p) = Ok vs.
Proof.
  unfold trajectory.
  destruct (years_from year0_value pos _) as [vs|e]; cbn [res_bind]; [|discriminate].
  intros [= <-]. eauto.
Qed.

Lemma pools_ready_no_error : pools_ready -> draw_error (PORTFOLIO p) = None.
Proof.
  unfold pools_ready. induction (PORTFOLIO p) as [|item items IH]; intros R.
  - reflexivity.
  - inversion R as [|? ? (pool & Hp & Hne) R']; subst. cbn [draw_error].
    rewrite Hp. destruct pool; [congruence | auto].
Qed.

(** Every asset has a pool, and one of them is empty. *)
Lemma empty_pool_error :
  Forall (fun item : Asset num * num => is_Some (returns_of !! ticker (fst item)))
         (PORTFOLIO p) ->
  (exists item, In item (PORTFOLIO p) /\ returns_of !! ticker (fst item) = Some []) ->
  draw_error (PORTFOLIO p) = Some IndexError.
Proof.
  induction (PORTFOLIO p) as [|item items IH]; intros A (bad & Hin & Hbad).
  - destruct Hin.
  - inversion A as [|? ? [pool Hp] A']; subst. cbn [draw_error]. rewrite Hp.
    destruct pool as [|x pool]; [reflexivity|].
    apply IH; [exact A'|]. destruct Hin as [->|Hin]; [congruence|eauto].
Qed.

(** The whole run, from the variables as the loop finds them. *)
Lemma simulation_run :
  let '(r, s') := simulation seed p returns_of initial_state in
  match trials_from 0 (TRIALS p) with
  | Ok ts => r = Ok tt /\ data s' = ts
  | Raise e => r = Raise e /\ data s' = []
  end.
Proof.
  unfold simulation.
  pose proof (trials_loop (TRIALS p) 0 initial_state) as L.
  destruct (for_each _ _ _) as [r s']. exact L.
Qed.

Lemma simulation_ok_data (s' : State num) :
  simulation seed p returns_of initial_state = (Ok tt, s') ->
  trials_from 0 (TRIALS p) = Ok (data s').
Proof.
  intros E. pose proof simulation_run as R. rewrite E in R.
  destruct (trials_from 0 (TRIALS p)) as [ts|e].
  - destruct R as (_ & ->). reflexivity.
  - destruct R as (R & _). discriminate R.
Qed.

Lemma simulation_raise_data (e : PyError) (s' : State num) :
  simulation seed p returns_of initial_state = (Raise e, s') ->
  trials_from 0 (TRIALS p) = Raise e /\ data s' = [].
Proof.
  intros E. pose proof simulation_run as R. rewrite E in R.
  destruct (trials_from 0 (TRIALS p)) as [ts|e'].
  - destruct R as (R & _). discriminate R.
  - destruct R as ([= ->] & ->). split; reflexivity.
Qed.

Lemma trajectory_length (pos : nat) (traj : list num) :
  trajectory pos = Ok traj -> length traj = YEARS_TO_SIMULATE p + 1.
Proof.
  intros T. destruct (trajectory_shape pos traj T) as (vs & -> & Y).
  apply years_from_length in Y. simpl. lia.
Qed.

Lemma simulation_completes :
  pools_ready ->
  exists s', simulation seed p returns_of initial_state = (Ok tt, s').
Proof.
  intros R. pose proof simulation_run as S.
  destruct (simulation seed p returns_of initial_state) as [r s'].
  pose proof (trials_from_outcome (TRIALS p) 0) as O.
  unfold trial_error in O. rewrite (pools_ready_no_error R) in O.
  replace (if Nat.eqb (TRIALS p) 0 then None
           else if Nat.eqb (YEARS_TO_SIMULATE p) 0 then None else None)
    with (@None PyError) in O
    by (destruct (Nat.eqb (TRIALS p) 0), (Nat.eqb (YEARS_TO_SIMULATE p) 0);
        reflexivity).
  destruct O as (ts & Hts). rewrite Hts in S. destruct S as (-> & _).
  now exists s'.
Qed.

(** C2.  A run whose pools are all there and not empty completes, and the
    matrix [data] of a completed run holds exactly TRIALS trajectories,
    each of length YEARS_TO_SIMULATE + 1. *)
Theorem matrix_shape :
  (pools_ready -> exists s', simulation seed p returns_of initial_state = (Ok tt, s'))
  /\ (forall s', simulation seed p returns_of initial_state = (Ok tt, s') ->
        length (data s') = TRIALS p
        /\ Forall (fun traj => length traj = YEARS_TO_SIMULATE p + 1) (data s')).
Proof.
  split; [exact simulation_completes|].
  intros s' E. apply simulation_ok_data in E. split.
  - eapply trials_from_length, E.
  - apply List.Forall_forall. intros traj Hin.
    apply In_nth_error in Hin as (t & Ht).
    eapply trajectory_length, trials_from_nth; eassumption.
Qed.

(** The recurrence between consecutive years of every trajectory: the
    value of year [y] is the value of year [y - 1] plus, asset by
    asset, [(old_value * weight) * r], where the [i]-th asset's [r] is the
    element of its pool selected by a call of [random.choice] of its own. *)
Lemma yearly_recurrence (s' : State num) :
  simulation seed p returns_of initial_state = (Ok tt, s') ->
  forall t traj y,
    nth_error (data s') t = Some traj ->
    1 <= y <= YEARS_TO_SIMULATE p ->
    exists old_value new_value rs,
      nth_error traj (y - 1) = Some old_value
      /\ nth_error traj y = Some new_value
      /\ drawn_from ((t * YEARS_TO_SIMULATE p + (y - 1)) * length (PORTFOLIO p))
                    (PORTFOLIO p) rs
      /\ new_value
         = add old_value
             (fold_left
                (fun acc ir => add acc (mul (mul old_value (snd (fst ir))) (snd ir)))
                (combine (PORTFOLIO p) rs) (of_int 0)).
Proof.
  intros E t traj y Ht Hy. apply simulation_ok_data in E.
  pose proof (trials_from_nth _ _ _ E t traj Ht) as T. rewrite Nat.add_0_l in T.
  destruct (trajectory_shape _ _ T) as (vs & -> & Y).
  destruct (years_from_steps _ _ _ _ Y (y - 1) ltac:(lia))
    as (old & new & rs & Ho & Hn & Hd & Hs).
  replace (S (y - 1)) with y in Hn by lia.
  exists old, new, rs.
  split; [exact Ho|]. split; [exact Hn|]. split; [|exact Hs].
  pose proof (draw_returns_outcome (PORTFOLIO p)
                (t * (YEARS_TO_SIMULATE p * length (PORTFOLIO p))
                 + (y - 1) * length (PORTFOLIO p))) as O.
  destruct (draw_error (PORTFOLIO p)) as [e|]; [congruence|].
  destruct O as (rs' & Hrs' & Hdrawn). rewrite Hd in Hrs'. injection Hrs' as <-.
  replace ((t * YEARS_TO_SIMULATE p + (y - 1)) * length (PORTFOLIO p))
    with (t * (YEARS_TO_SIMULATE p * length (PORTFOLIO p))
          + (y - 1) * length (PORTFOLIO p)) by lia.
  exact Hdrawn.
Qed.

Lemma trajectory_year0 (s' : State num) :
  simulation seed p returns_of initial_state = (Ok tt, s') ->
  forall traj, In traj (data s') -> nth_error traj 0 = Some year0_value.
Proof.
  intros E traj Hin. apply simulation_ok_data in E.
  apply In_nth_error in Hin as (t & Ht).
  pose proof (trials_from_nth _ _ _ E t traj Ht) as T.
  destruct (trajectory_shape _ _ T) as (vs & -> & _). reflexivity.
Qed.

Lemma simulation_empty_pool :
  Forall (fun item : Asset num * num => is_Some (returns_of !! ticker (fst item)))
         (PORTFOLIO p) ->
  (exists item, In item (PORTFOLIO p) /\ returns_of !! ticker (fst item) = Some []) ->
  1 <= TRIALS p -> 1 <= YEARS_TO_SIMULATE p ->
  exists s', simulation seed p returns_of initial_state = (Raise IndexError, s')
             /\ data s' = [].
Proof.
  intros A B HT HY.
  pose proof simulation_run as R.
  destruct (simulation seed p returns_of initial_state) as [r s'].
  pose proof (trials_from_outcome (TRIALS p) 0) as O.
  unfold trial_error in O. rewrite (empty_pool_error A B) in O.
  destruct (Nat.eqb_spec (TRIALS p) 0) as [E|_]; [lia|].
  destruct (Nat.eqb_spec (YEARS_TO_SIMULATE p) 0) as [E|_]; [lia|].
  rewrite O in R. destruct R as (-> & D). now exists s'.
Qed.

(** When the draws of a year fail, they fail in year 1 of the first trial:
    [data] is as it was, and [current_sim_data] holds the value of year 0
    and nothing else. *)
Lemma year_body_raise (year : nat) (s : State num) (e : PyError) :
  year <> 0 ->
  draw_error (PORTFOLIO p) = Some e ->
  exists s', year_body seed p returns_of year s = (Raise e, s')
             /\ data s' = data s /\ current_sim_data s' = current_sim_data s.
Proof.
  intros Hy E. unfold year_body, bind, modify. simpl.
  pose proof (asset_loop_later year (PORTFOLIO p)
                (set_value_to_add s (of_int 0)) Hy) as L.
  destruct (for_each (PORTFOLIO p) _ _) as [r s1].
  destruct L as (Hd & Hc & Hp & Hrs). simpl in Hd, Hc, Hp, Hrs.
  pose proof (draw_returns_outcome (PORTFOLIO p) (rng s)) as O. rewrite E in O.
  rewrite O in Hrs. subst r. exists s1. repeat split; assumption.
Qed.

Lemma trial_body_raise (s : State num) (e : PyError) :
  1 <= YEARS_TO_SIMULATE p ->
  draw_error (PORTFOLIO p) = Some e ->
  exists s', trial_body seed p returns_of s = (Raise e, s')
             /\ data s' = data s /\ current_sim_data s' = [year0_value].
Proof.
  intros HY E. unfold trial_body, bind, modify. simpl.
  rewrite Nat.add_1_r. simpl seq. simpl for_each. unfold bind at 1.
  rewrite year_body_year0. simpl.
  destruct (YEARS_TO_SIMULATE p) as [|k]; [lia|].
  simpl seq. simpl for_each. unfold bind at 1.
  match goal with |- context [year_body seed p returns_of 1 ?s0] =>
    destruct (year_body_raise 1 s0 e (Nat.neq_succ_0 0) E) as (s1 & -> & Hd & Hc)
  end.
  exists s1. simpl in Hd, Hc. repeat split; assumption.
Qed.

Lemma simulation_raise_first_trial (e : PyError) :
  1 <= TRIALS p -> 1 <= YEARS_TO_SIMULATE p ->
  draw_error (PORTFOLIO p) = Some e ->
  exists s', simulation seed p returns_of initial_state = (Raise e, s')
             /\ data s' = [] /\ current_sim_data s' = [year0_value].
Proof.
  intros HT HY E. unfold simulation.
  destruct (TRIALS p) as [|k]; [lia|]. simpl seq. simpl for_each. unfold bind.
  destruct (trial_body_raise initial_state e HY E) as (s1 & -> & Hd & Hc).
  exists s1. repeat split; assumption.
Qed.

End SimulationFacts.

(** ** The counting loops *)

Section Counting.

Context {num : Type} `{Arith num}.

Lemma count_loop_total (test : num -> bool) (dist : list num) (count : nat) :
  count_loop (fun growth => Ok (test growth)) dist count
  = Ok (count + count_if test dist).
Proof.
  revert count. induction dist as [|g dist IH]; intros count; simpl.
  - unfold count_if. simpl. f_equal. lia.
  - rewrite IH. unfold count_if. simpl. destruct (test g); simpl; f_equal; lia.
Qed.

Lemma chained_lt_bounds (mn mx growth : num) :
  chained_lt (Some mn) growth (Some mx) = Ok (ltb mn growth && ltb growth mx).
Proof. unfold chained_lt. simpl. destruct (ltb mn growth); reflexivity. Qed.

Lemma count_loop_ext (f g : num -> Res bool) (dist : list num) (count : nat) :
  (forall x, f x = g x) -> count_loop f dist count = count_loop g dist count.
Proof.
  intros E. revert count. induction dist as [|x dist IH]; intros count; simpl.
  - reflexivity.
  - rewrite E. destruct (g x) as [b|e]; simpl; [apply IH | reflexivity].
Qed.

Lemma py_int_div_length (count : nat) (dist : list num) :
  dist <> [] ->
  res_bind (py_int_div (Z.of_nat count) (Z.of_nat (length dist)))
           (fun q => Ok (mul q (of_int 100)))
  = Ok (percentage count (length dist)).
Proof.
  intros Hne. unfold py_int_div.
  destruct dist as [|x dist]; [congruence|].
  replace (Z.of_nat (length (x :: dist)) =? 0)%Z with false; [reflexivity|].
  symmetry. apply Z.eqb_neq. simpl length. lia.
Qed.

End Counting.

(** ** growth_probability *)

Section GrowthProbability.

Context {num : Type} `{Arith num}.

Lemma growth_probability_between (dist : list num) (mn mx : num) :
  dist <> [] ->
  growth_probability dist (Some mn) (Some mx)
  = Ok (percentage (count_if (fun g => ltb mn g && ltb g mx) dist) (length dist)).
Proof.
  intros Hne. unfold growth_probability.
  rewrite (count_loop_ext _ (fun g => Ok (ltb mn g && ltb g mx)))
    by (intros x; apply chained_lt_bounds).
  rewrite count_loop_total. simpl. now apply py_int_div_length.
Qed.

Lemma growth_probability_below (dist : list num) (mx : num) :
  dist <> [] ->
  growth_probability dist None (Some mx)
  = Ok (percentage (count_if (fun g => ltb g mx) dist) (length dist)).
Proof.
  intros Hne. unfold growth_probability.
  rewrite count_loop_total. simpl. now apply py_int_div_length.
Qed.

Lemma growth_probability_above (dist : list num) (mn : num) :
  dist <> [] ->
  growth_probability dist (Some mn) None
  = Ok (percentage (count_if (fun g => gtb g mn) dist) (length dist)).
Proof.
  intros Hne. unfold growth_probability.
  rewrite count_loop_total. simpl. now apply py_int_div_length.
Qed.

(** C5.  On a distribution that is not empty, [growth_probability] returns
    [count / trials * 100], and which bound is present selects the count:
    both bounds, the elements strictly between them; only the upper bound,
    the elements strictly below it; only the lower bound, the elements
    strictly above it. *)
Theorem growth_probability_modes (dist : list num) (mn mx : num) :
  dist <> [] ->
  growth_probability dist (Some mn) (Some mx)
    = Ok (percentage (count_if (fun g => ltb mn g && ltb g mx) dist) (length dist))
  /\ growth_probability dist None (Some mx)
    = Ok (percentage (count_if (fun g => ltb g mx) dist) (length dist))
  /\ growth_probability dist (Some mn) None
    = Ok (percentage (count_if (fun g => gtb g mn) dist) (length dist)).
Proof.
  intros Hne. split; [|split].
  - now apply growth_probability_between.
  - now apply growth_probability_below.
  - now apply growth_probability_above.
Qed.

Lemma count_loop_none (dist : list num) (count : nat) :
  dist <> [] ->
  count_loop (fun growth => chained_lt None growth None) dist count
  = Raise TypeError.
Proof. destruct dist as [|g dist]; [congruence | reflexivity]. Qed.

(** C6, as the code has it.  With both bounds absent and a distribution that
    is not empty, the call fails on the first comparison [None < growth]
    with TypeError; on the empty distribution it fails, whatever the
    bounds, at the division by [len(growth_data)] with ZeroDivisionError. *)
Theorem growth_probability_failures :
  (forall dist : list num, dist <> [] ->
     growth_probability dist None None = Raise TypeError)
  /\ (forall mn mx : option num,
     growth_probability [] mn mx = Raise ZeroDivisionError).
Proof.
  split.
  - intros dist Hne. unfold growth_probability.
    now rewrite count_loop_none.
  - intros [mn|] [mx|]; reflexivity.
Qed.

End GrowthProbability.

(** ** The script as a whole *)

Section ScriptFacts.

Context {num : Type} `{Arith num}.
Variable pow : num -> nat -> Res num.
Variable seed : nat -> nat.
Variable plot_trajectories : list (list num) -> Res unit.
Variable plot_histogram : list num -> list num -> Res unit.
Variable p : Params num.

Lemma build_yearly_returns_keys (items : list (Asset num * num))
    (m yr : gmap string (list num)) :
  build_yearly_returns items m = Ok yr ->
  (forall k, is_Some (m !! k) -> is_Some (yr !! k))
  /\ Forall (fun item : Asset num * num => is_Some (yr !! ticker (fst item))) items.
Proof.
  revert m. induction items as [|[asset w] items IH]; intros m; cbn [build_yearly_returns].
  - intros [= <-]. split; [auto | constructor].
  - destruct (get_yearly_returns asset) as [r|e]; cbn [res_bind]; [|discriminate].
    intros B. destruct (IH _ B) as (K & F). split.
    + intros k Hk. apply K.
      destruct (decide (ticker asset = k)) as [<-|Hne].
      * rewrite lookup_insert_eq. eauto.
      * rewrite lookup_insert_ne by exact Hne. exact Hk.
    + constructor; [|exact F]. apply K. cbn [fst].
      rewrite lookup_insert_eq. eauto.
Qed.

Lemma final_growths_each (data : list (list num)) (gs : list num) :
  final_growths p data = Ok gs ->
  Forall2 (fun traj g =>
             exists last_value,
               last traj = Some last_value
               /\ g = sub (mul (div last_value (INITIAL_INVESTMENT p)) (of_int 100))
                         (of_int 100))
          data gs.
Proof.
  revert gs. induction data as [|traj data IH]; intros gs; cbn [final_growths].
  - intros [= <-]. constructor.
  - unfold py_last, py_div.
    destruct (last traj) as [x|] eqn:L; cbn [res_bind]; [|discriminate].
    destruct (eqb (INITIAL_INVESTMENT p) (of_int 0)); cbn [res_bind]; [discriminate|].
    destruct (final_growths p data) as [gs'|e]; cbn [res_bind]; [|discriminate].
    intros [= <-]. constructor; [eauto | now apply IH].
Qed.

Lemma final_growths_total (data : list (list num)) :
  eqb (INITIAL_INVESTMENT p) (of_int 0) = false ->
  Forall (fun traj => traj <> []) data ->
  exists gs, final_growths p data = Ok gs.
Proof.
  intros HI. induction data as [|traj data IH]; intros F; cbn [final_growths].
  - now exists [].
  - inversion F as [|? ? Hne F']; subst. unfold py_last, py_div. rewrite HI.
    destruct (last traj) as [x|] eqn:L.
    + destruct (IH F') as (gs & ->). cbn [res_bind]. eauto.
    + apply last_None in L. contradiction.
Qed.

Lemma simulated_data_inv (matrix : list (list num)) :
  simulated_data seed p = Ok matrix ->
  exists yr s',
    yearly_returns p = Ok yr
    /\ simulation seed p yr initial_state = (Ok tt, s')
    /\ matrix = data s'.
Proof.
  unfold simulated_data.
  destruct (yearly_returns p) as [yr|e]; cbn [res_bind]; [|discriminate].
  destruct (simulation seed p yr initial_state) as [[[]|e] s'] eqn:S;
    [|discriminate].
  intros [= <-]. exists yr, s'. auto.
Qed.

Lemma simulated_data_shape (data : list (list num)) :
  simulated_data seed p = Ok data ->
  length data = TRIALS p /\ Forall (fun traj => traj <> []) data.
Proof.
  intros D. destruct (simulated_data_inv data D) as (yr & s' & _ & S & ->).
  apply simulation_ok_data in S. split.
  - eapply trials_from_length, S.
  - apply List.Forall_forall. intros traj Hin ->.
    apply In_nth_error in Hin as (t & Ht).
    pose proof (trials_from_nth _ _ _ _ _ _ S t [] Ht) as T.
    apply trajectory_length in T. cbn [length] in T. lia.
Qed.

Lemma simulated_data_lengths (data : list (list num)) :
  simulated_data seed p = Ok data ->
  Forall (fun traj => length traj = YEARS_TO_SIMULATE p + 1) data.
Proof.
  intros D. destruct (simulated_data_inv data D) as (yr & s' & _ & S & ->).
  apply simulation_ok_data in S.
  apply List.Forall_forall. intros traj Hin.
  apply In_nth_error in Hin as (t & Ht).
  pose proof (trials_from_nth _ _ _ _ _ _ S t traj Ht) as T.
  apply trajectory_length in T. lia.
Qed.

(** The last element of a list of [n + 1] elements is the one at index [n]. *)
Lemma last_nth_error (l : list num) (n : nat) (x : num) :
  length l = S n -> last l = Some x -> nth_error l n = Some x.
Proof.
  revert n. induction l as [|a l IH]; intros n L E; [discriminate|].
  destruct l as [|b l].
  - cbn in L, E. injection L as <-. exact E.
  - destruct n as [|n]; [discriminate|].
    cbn [nth_error]. apply IH; [cbn [length] in L |- *; lia | exact E].
Qed.

Lemma simulation_without_draws (yr : gmap string (list num)) :
  TRIALS p = 0 \/ YEARS_TO_SIMULATE p = 0 ->
  exists s', simulation seed p yr initial_state = (Ok tt, s').
Proof.
  intros Z. pose proof (simulation_run seed p yr) as R.
  destruct (simulation seed p yr initial_state) as [r s'].
  pose proof (trials_from_outcome seed p yr (TRIALS p) 0) as O.
  unfold trial_error in O.
  assert (N : (if Nat.eqb (TRIALS p) 0 then None
               else if Nat.eqb (YEARS_TO_SIMULATE p) 0 then None
                    else draw_error yr (PORTFOLIO p)) = None).
  { destruct Z as [-> | ->]; [reflexivity|].
    destruct (Nat.eqb (TRIALS p) 0); reflexivity. }
  rewrite N in O. destruct O as (ts & T). rewrite T in R.
  destruct R as (-> & _). now exists s'.
Qed.

(** C8, as the code has it.  When an asset's pool is empty and the run has
    at least one trial and one year after year 0, a draw of year 1 of the
    first trial raises IndexError: the simulation stops inside the first
    trial, whose value of year 0 is computed and stored in
    [current_sim_data], with [data] still empty.  With no trial or no year
    after year 0 no draw is made and the simulation completes. *)
Theorem empty_pool_fails_first_trial (yr : gmap string (list num)) :
  yearly_returns p = Ok yr ->
  (exists item, In item (PORTFOLIO p) /\ yr !! ticker (fst item) = Some []) ->
  (1 <= TRIALS p -> 1 <= YEARS_TO_SIMULATE p ->
   exists s', simulation seed p yr initial_state = (Raise IndexError, s')
              /\ data s' = []
              /\ current_sim_data s' = [year0_value p])
  /\ (TRIALS p = 0 \/ YEARS_TO_SIMULATE p = 0 ->
      exists s', simulation seed p yr initial_state = (Ok tt, s')).
Proof.
  intros Y B. split.
  - intros HT HY.
    destruct (build_yearly_returns_keys _ _ _ Y) as (_ & F).
    apply simulation_raise_first_trial; [exact HT | exact HY |].
    now apply empty_pool_error.
  - apply simulation_without_draws.
Qed.

(** C10.  The script completes exactly when the benchmark's future value
    [INITIAL_INVESTMENT * (1 + BENCHMARK_ANNUAL_RETURN) ** YEARS_TO_SIMULATE]
    is computed, the simulation and [final_growths] complete, the plots do
    not raise and there is a trial; and then the probability it reports is
    [growth_probability(final_growths, benchmark_future_value, None)] on the
    final growths of the run's own matrix: the percentage of trials whose
    final growth, a percentage, strictly exceeds the benchmark's future
    value, an amount of money.  The benchmark comes first: when its power
    raises, the script raises the same, whatever the pools are; next come
    the pools and the simulation; and a script without trials stops at the
    statistics, before the probability. *)
Theorem outperformance_against_future_value :
  (forall rep : Report num,
     script pow seed plot_trajectories plot_histogram p = Ok rep
     <-> exists x data growths,
           pow (add (of_int 1) (BENCHMARK_ANNUAL_RETURN p)) (YEARS_TO_SIMULATE p)
           = Ok x
           /\ simulated_data seed p = Ok data
           /\ plot_trajectories (map (percent_increase p) data) = Ok tt
           /\ final_growths p data = Ok growths
           /\ plot_histogram growths
                (final_growth_frequencies p (final_growth_counts growths)) = Ok tt
           /\ length growths = TRIALS p /\ TRIALS p <> 0
           /\ growth_probability growths (Some (mul (INITIAL_INVESTMENT p) x)) None
              = Ok (report_outperformance_probability rep)
           /\ rep = mkReport data growths
                      (percentage
                         (count_if (fun g => gtb g (mul (INITIAL_INVESTMENT p) x))
                                   growths)
                         (length growths)))
  /\ (forall e,
        pow (add (of_int 1) (BENCHMARK_ANNUAL_RETURN p)) (YEARS_TO_SIMULATE p)
        = Raise e ->
        script pow seed plot_trajectories plot_histogram p = Raise e)
  /\ (forall x e,
        pow (add (of_int 1) (BENCHMARK_ANNUAL_RETURN p)) (YEARS_TO_SIMULATE p)
        = Ok x ->
        simulated_data seed p = Raise e ->
        script pow seed plot_trajectories plot_histogram p = Raise e)
  /\ (forall x data,
        pow (add (of_int 1) (BENCHMARK_ANNUAL_RETURN p)) (YEARS_TO_SIMULATE p)
        = Ok x ->
        simulated_data seed p = Ok data ->
        TRIALS p = 0 ->
        plot_trajectories (map (percent_increase p) data) = Ok tt ->
        plot_histogram [] [] = Ok tt ->
        script pow seed plot_trajectories plot_histogram p = Raise StatisticsError).
Proof.
  unfold script, benchmark_future_value, outperformance_probability.
  split; [|split; [|split]].
  - intros rep. split.
    + destruct (pow _ _) as [x|e]; cbn [res_bind]; [|discriminate].
      destruct (simulated_data seed p) as [data|e] eqn:D; cbn [res_bind];
        [|discriminate].
      destruct (plot_trajectories _) as [[]|e] eqn:P1; cbn [res_bind]; [|discriminate].
      destruct (final_growths p data) as [growths|e] eqn:G; cbn [res_bind];
        [|discriminate].
      destruct (plot_histogram _ _) as [[]|e] eqn:P2; cbn [res_bind]; [|discriminate].
      pose proof (proj1 (simulated_data_shape data D)) as L.
      pose proof (Forall2_length _ _ _ (final_growths_each _ _ G)) as L'.
      destruct growths as [|g growths]; [discriminate|]. cbn [print_statistics res_bind].
      rewrite growth_probability_above by discriminate. cbn [res_bind].
      intros [= <-]. exists x, data, (g :: growths).
      cbn [report_outperformance_probability].
      repeat split; try assumption; try reflexivity.
      * congruence.
      * rewrite <- L, L'. discriminate.
      * now rewrite growth_probability_above by discriminate.
    + intros (x & data & growths & -> & -> & P1 & G & P2 & L & N & GP & ->).
      cbn [res_bind]. rewrite P1. cbn [res_bind]. rewrite G. cbn [res_bind].
      rewrite P2. cbn [res_bind].
      destruct growths as [|g growths]; [cbn [length] in L; congruence|].
      cbn [print_statistics res_bind].
      rewrite growth_probability_above by discriminate. reflexivity.
  - intros e ->. reflexivity.
  - intros x e -> ->. reflexivity.
  - intros x data -> D T P1 P2.
    pose proof (proj1 (simulated_data_shape data D)) as L.
    rewrite D. cbn [res_bind]. rewrite P1. cbn [res_bind].
    destruct data as [|traj data]; [|cbn [length] in L; lia].
    cbn [final_growths res_bind final_growth_counts final_growth_frequencies
         length seq combine map].
    rewrite P2. reflexivity.
Qed.

End ScriptFacts.

(** ** Exact arithmetic *)

(** Goals between rationals written with the interface's constants. *)
Ltac exact_ring :=
  cbn [add sub mul div of_int Exact];
  replace (Q2Qc (inject_Z 1)) with 1%Qc by (apply Qc_is_canon; reflexivity);
  replace (Q2Qc (inject_Z 0)) with 0%Qc by (apply Qc_is_canon; reflexivity);
  ring.

Section ExactArithmetic.

Local Open Scope Qc_scope.

Lemma exact_of_int_add (a b : Z) :
  @of_int Qc Exact (a + b) = @of_int Qc Exact a + @of_int Qc Exact b.
Proof.
  cbn [of_int Exact]. apply Qc_is_canon. unfold Qcplus.
  cbn [this Q2Qc]. rewrite !Qred_correct, inject_Z_plus. reflexivity.
Qed.

Lemma exact_of_int_neq_0 (a : Z) : a <> 0%Z -> @of_int Qc Exact a <> 0.
Proof.
  intros Ha E. apply Ha. cbn [of_int Exact] in E.
  apply (f_equal this) in E. cbn [this Q2Qc] in E.
  assert (Q : (inject_Z a == 0)%Q).
  { rewrite <- (Qred_correct (inject_Z a)), E. reflexivity. }
  unfold Qeq in Q. simpl in Q. lia.
Qed.

(** The delta of a year is the old value times the weighted return. *)
Lemma year_delta_factor (old : Qc) (wr : list (Asset Qc * Qc * Qc)) (acc b : Qc) :
  fold_left (fun a x => a + (old * snd (fst x)) * snd x) wr acc
  = acc + old * fold_left (fun a x => a + snd (fst x) * snd x) wr b - old * b.
Proof.
  revert acc b. induction wr as [|[[a w] r] wr IH]; intros acc b; cbn [fold_left fst snd].
  - ring.
  - rewrite (IH _ (b + w * r)). ring.
Qed.

Lemma weighted_sum_factor (v : Qc) (items : list (Asset Qc * Qc)) (acc b : Qc) :
  fold_left (fun a item => a + v * snd item) items acc
  = acc + v * fold_left Qcplus (map snd items) b - v * b.
Proof.
  revert acc b. induction items as [|[a w] items IH]; intros acc b;
    cbn [fold_left map snd].
  - ring.
  - rewrite (IH _ (b + w)). ring.
Qed.

Lemma growth_forms (q : Qc) :
  q * @of_int Qc Exact 100 - @of_int Qc Exact 100
  = (q - @of_int Qc Exact 1) * @of_int Qc Exact 100.
Proof.
  exact_ring.
Qed.

(** Of two rationals exactly one is smaller, or they are equal. *)
Lemma exact_trichotomy (X : Qc) (dist : list Qc) :
  (count_if (fun g => ltb g X) dist + count_if (fun g => gtb g X) dist
   + count_if (fun g => eqb g X) dist = length dist)%nat.
Proof.
  unfold count_if, gtb. cbn [ltb eqb Exact]. unfold Qccompare.
  induction dist as [|g dist IH]; [reflexivity|]. cbn [List.filter].
  rewrite <- (Qcompare_antisym g X).
  destruct (Qcompare g X); cbn [CompOpp length]; lia.
Qed.

(** C9, in exact arithmetic.  On a distribution that is not empty, the
    percentage strictly below a threshold and the percentage strictly above
    it add up to 100 minus 100 times the share of the elements equal to the
    threshold. *)
Theorem complementary_probabilities_exact (dist : list Qc) (X : Qc) :
  dist <> [] ->
  exists below above : Qc,
    growth_probability dist None (Some X) = Ok below
    /\ growth_probability dist (Some X) None = Ok above
    /\ below + above
       = of_int 100
         - of_int 100 * of_int (Z.of_nat (count_if (fun g => eqb g X) dist))
           / of_int (Z.of_nat (length dist)).
Proof.
  intros Hne.
  rewrite (growth_probability_below dist X Hne).
  rewrite (growth_probability_above dist X Hne).
  do 2 eexists. split; [reflexivity|]. split; [reflexivity|].
  unfold percentage. cbn [add sub mul div Exact].
  pose proof (exact_trichotomy X dist) as T.
  assert (N : @of_int Qc Exact (Z.of_nat (length dist)) <> 0).
  { apply exact_of_int_neq_0. destruct dist; [congruence | simpl; lia]. }
  assert (S : @of_int Qc Exact (Z.of_nat (length dist))
              = @of_int Qc Exact (Z.of_nat (count_if (fun g => ltb g X) dist))
                + @of_int Qc Exact (Z.of_nat (count_if (fun g => gtb g X) dist))
                + @of_int Qc Exact (Z.of_nat (count_if (fun g => eqb g X) dist))).
  { rewrite <- T, !Nat2Z.inj_add, !exact_of_int_add. reflexivity. }
  revert N S.
  generalize (@of_int Qc Exact (Z.of_nat (length dist))) as n.
  generalize (@of_int Qc Exact (Z.of_nat (count_if (fun g => ltb g X) dist))) as l.
  generalize (@of_int Qc Exact (Z.of_nat (count_if (fun g => gtb g X) dist))) as g.
  generalize (@of_int Qc Exact (Z.of_nat (count_if (fun g => eqb g X) dist))) as e.
  generalize (@of_int Qc Exact 100) as c.
  intros c e g l n N ->. field. exact N.
Qed.

End ExactArithmetic.

(** ** The builder of return series *)

(** C7, as the code has it.  With no close at all [get_yearly_returns]
    fails, at [pop(0)], with IndexError; with one close or more it succeeds
    and returns one fractional return per adjacent pair of closes,
    [p_curr / p_prev - 1], oldest first, so with exactly one close it
    returns the empty pool.  In exact arithmetic that return is
    [(p_curr - p_prev) / p_prev], and the closes 100, 110, 99 give the
    returns 0.10 and -0.10; in binary64 they give 0.10000000000000009 and
    -0.09999999999999998. *)
Theorem get_yearly_returns_cases :
  (forall (num : Type) (A : Arith num) (asset : Asset num),
     match yearly_closes asset with
     | [] => get_yearly_returns asset = Raise IndexError
     | _ :: _ =>
         exists returns,
           get_yearly_returns asset = Ok returns
           /\ length returns = length (yearly_closes asset) - 1
           /\ forall i prev cur,
                nth_error (yearly_closes asset) i = Some prev ->
                nth_error (yearly_closes asset) (S i) = Some cur ->
                nth_error returns i = Some (sub (div cur prev) (of_int 1))
     end)
  /\ (forall (num : Type) (A : Arith num) (name : string) (close : num),
        get_yearly_returns (mkAsset name [close]) = Ok [])
  /\ (forall prev cur : Qc,
        prev <> Q2Qc 0 ->
        sub (div cur prev) (of_int 1) = div (sub cur prev) prev)
  /\ get_yearly_returns
       (mkAsset "AAPL" [Q2Qc 100; Q2Qc 110; Q2Qc 99])
     = Ok [Q2Qc (1 # 10); Q2Qc (- 1 # 10)]
  /\ get_yearly_returns (mkAsset "AAPL" [100; 110; 99]%float)
     = Ok [0.10000000000000009; -0.09999999999999998]%float.
Proof.
  split; [|split; [|split; [|split]]].
  - intros num A asset. unfold get_yearly_returns, pct_change.
    destruct (yearly_closes asset) as [|first rest]; [reflexivity|].
    cbn [pop0 res_bind]. eexists. split; [reflexivity|].
    assert (L : forall prev prices, length (pct_change_from prev prices) = length prices).
    { intros prev prices. revert prev.
      induction prices as [|c prices IH]; intros prev; simpl; auto. }
    split; [rewrite L; simpl; lia|].
    revert first.
    induction rest as [|c rest IH]; intros first i prev cur Hp Hc.
    + destruct i as [|[|i]]; discriminate.
    + destruct i as [|i]; cbn [nth_error pct_change_from] in *.
      * injection Hp as <-. injection Hc as <-. reflexivity.
      * eapply IH; eassumption.
  - reflexivity.
  - intros prev cur P. cbn [sub div of_int Exact].
    replace (Q2Qc (inject_Z 1)) with 1%Qc by (apply Qc_is_canon; reflexivity).
    field. exact P.
  - cbn. repeat f_equal; apply Qc_is_canon; reflexivity.
  - vm_compute. reflexivity.
Qed.

(** ** The claims that depend on the arithmetic *)

(** The calls of [random.choice] of a run are numbered trial by trial, year
    by year and asset by asset, so that [seed_of_choices] gives each draw
    its own selection. *)
Lemma seed_of_choices_at (years assets : nat) (choice : nat -> nat -> nat -> nat)
    (t y i : nat) :
  1 <= y <= years -> i < assets ->
  seed_of_choices years assets choice ((t * years + (y - 1)) * assets + i)
  = choice t y i.
Proof.
  intros Hy Hi. unfold seed_of_choices.
  assert (D : ((t * years + (y - 1)) * assets + i) / assets = t * years + (y - 1))
    by (symmetry; apply Nat.div_unique with i; lia).
  assert (R : ((t * years + (y - 1)) * assets + i) mod assets = i)
    by (symmetry; apply Nat.mod_unique with (t * years + (y - 1)); lia).
  rewrite D, R.
  assert (D' : (t * years + (y - 1)) / years = t)
    by (symmetry; apply Nat.div_unique with (y - 1); lia).
  assert (R' : (t * years + (y - 1)) mod years = y - 1)
    by (symmetry; apply Nat.mod_unique with t; lia).
  rewrite D', R'. f_equal. lia.
Qed.

(** C1.  A run whose pools are all there and not empty completes.  In a
    completed run, for every trial [t] and every year [y] from 1 to
    YEARS_TO_SIMULATE, the value of year [y] is the value of year [y - 1]
    plus the sum, asset by asset in portfolio order, of
    [(old_value * weight) * r], where the [i]-th asset's [r] is the element
    of that asset's pool selected by a call of [random.choice] made for
    this draw only; every share is taken from the total value of the year
    before.  This holds in every arithmetic, binary64 included.  In exact
    arithmetic the new value is also [old_value * (1 + sum of weight * r)].
    No draw constrains another: whatever position is wanted for each
    trial, year and asset, some generator makes every draw of the run the
    element of its asset's pool at the position wanted for it (a position
    past the end counting from the start again), so that the draws are as
    independent and as uniform as the selections of [random.choice]. *)
Theorem rebalanced_every_year :
  (forall (num : Type) (A : Arith num) (seed : nat -> nat) (p : Params num)
          (returns_of : gmap string (list num)),
     (pools_ready p returns_of ->
      exists s', simulation seed p returns_of initial_state = (Ok tt, s'))
     /\ forall s' : State num,
         simulation seed p returns_of initial_state = (Ok tt, s') ->
         forall t traj y,
           nth_error (data s') t = Some traj ->
           1 <= y <= YEARS_TO_SIMULATE p ->
           exists old_value new_value rs,
             nth_error traj (y - 1) = Some old_value
             /\ nth_error traj y = Some new_value
             /\ drawn_from seed returns_of
                  ((t * YEARS_TO_SIMULATE p + (y - 1)) * length (PORTFOLIO p))
                  (PORTFOLIO p) rs
             /\ new_value
                = add old_value
                    (fold_left
                       (fun acc ir =>
                          add acc (mul (mul old_value (snd (fst ir))) (snd ir)))
                       (combine (PORTFOLIO p) rs) (of_int 0)))
  /\ (forall (old_value : Qc) (items : list (Asset Qc * Qc)) (rs : list Qc),
        add old_value
          (fold_left
             (fun acc ir => add acc (mul (mul old_value (snd (fst ir))) (snd ir)))
             (combine items rs) (of_int 0))
        = mul old_value
            (add (of_int 1)
               (fold_left (fun acc ir => add acc (mul (snd (fst ir)) (snd ir)))
                          (combine items rs) (of_int 0))))
  /\ (forall (num : Type) (A : Arith num) (p : Params num)
             (returns_of : gmap string (list num))
             (choice : nat -> nat -> nat -> nat),
        exists seed : nat -> nat,
          (pools_ready p returns_of ->
           exists s', simulation seed p returns_of initial_state = (Ok tt, s'))
          /\ forall s' : State num,
              simulation seed p returns_of initial_state = (Ok tt, s') ->
              forall t traj y,
                nth_error (data s') t = Some traj ->
                1 <= y <= YEARS_TO_SIMULATE p ->
                exists old_value new_value rs,
                  nth_error traj (y - 1) = Some old_value
                  /\ nth_error traj y = Some new_value
                  /\ length rs = length (PORTFOLIO p)
                  /\ (forall i item,
                        nth_error (PORTFOLIO p) i = Some item ->
                        exists pool,
                          returns_of !! ticker (fst item) = Some pool
                          /\ pool <> []
                          /\ nth_error rs i
                             = nth_error pool (choice t y i mod length pool))
                  /\ new_value
                     = add old_value
                         (fold_left
                            (fun acc ir =>
                               add acc (mul (mul old_value (snd (fst ir))) (snd ir)))
                            (combine (PORTFOLIO p) rs) (of_int 0))).
Proof.
  split; [|split].
  - intros num A seed p returns_of. split.
    + apply simulation_completes.
    + apply yearly_recurrence.
  - intros old_value items rs. cbn [add mul of_int Exact].
    rewrite (year_delta_factor old_value (combine items rs) _ (Q2Qc (inject_Z 0))).
    exact_ring.
  - intros num A p returns_of choice.
    exists (seed_of_choices (YEARS_TO_SIMULATE p) (length (PORTFOLIO p)) choice).
    split; [apply simulation_completes|].
    intros s' S t traj y Ht Hy.
    destruct (yearly_recurrence _ _ _ s' S t traj y Ht Hy)
      as (old_value & new_value & rs & Ho & Hn & (L & D) & E).
    exists old_value, new_value, rs. repeat split; try assumption.
    intros i item Hi. destruct (D i item Hi) as (pool & Hp & Hne & Er).
    exists pool. repeat split; try assumption.
    rewrite Er, seed_of_choices_at; [reflexivity | exact Hy |].
    apply nth_error_Some. congruence.
Qed.

(** C3, as the code has it.  A run whose pools are all there and not empty
    completes, and in every arithmetic, binary64 included, every trajectory
    of a completed run starts at the sum, from 0 and asset by asset in
    portfolio order, of [INITIAL_INVESTMENT * weight], plus 0.  In exact
    arithmetic, when the weights sum to 1, that value is the initial
    investment. *)
Theorem year0_value_of_every_trial :
  (forall (num : Type) (A : Arith num) (seed : nat -> nat) (p : Params num)
          (returns_of : gmap string (list num)),
     (pools_ready p returns_of ->
      exists s', simulation seed p returns_of initial_state = (Ok tt, s'))
     /\ forall s' : State num,
         simulation seed p returns_of initial_state = (Ok tt, s') ->
         forall traj, In traj (data s') ->
         nth_error traj 0
         = Some (add (fold_left
                        (fun acc item => add acc (mul (INITIAL_INVESTMENT p) (snd item)))
                        (PORTFOLIO p) (of_int 0))
                     (of_int 0)))
  /\ (forall (seed : nat -> nat) (p : Params Qc)
             (returns_of : gmap string (list Qc)) (s' : State Qc),
        weights_sum p = of_int 1 ->
        simulation seed p returns_of initial_state = (Ok tt, s') ->
        forall traj, In traj (data s') ->
        nth_error traj 0 = Some (INITIAL_INVESTMENT p)).
Proof.
  split.
  - intros num A seed p returns_of. split.
    + apply simulation_completes.
    + intros s' E traj Hin. exact (trajectory_year0 seed p returns_of s' E traj Hin).
  - intros seed p returns_of s' W E traj Hin.
    rewrite (trajectory_year0 seed p returns_of s' E traj Hin).
    f_equal. unfold year0_value. unfold weights_sum in W.
    cbn [add mul of_int Exact] in W |- *.
    rewrite (weighted_sum_factor _ _ _ (Q2Qc (inject_Z 0))), W.
    exact_ring.
Qed.

(** C4, as the code has it.  In every arithmetic, binary64 included:
    [final_growths] succeeds when the initial investment is not zero and no
    trajectory is empty; its result has one element per trajectory, each
    equal to [last_value / INITIAL_INVESTMENT * 100 - 100] for the last
    value of its trajectory.  On the matrix of a completed simulation it
    succeeds when the initial investment is not zero, and whenever it
    succeeds it has TRIALS elements, each computed from the value of the
    final year, the one at index YEARS_TO_SIMULATE of its trajectory.  In
    exact arithmetic each element is also
    [(last_value / INITIAL_INVESTMENT - 1) * 100]. *)
Theorem final_growths_of_trajectories :
  (forall (num : Type) (A : Arith num) (p : Params num) (matrix : list (list num)),
     (eqb (INITIAL_INVESTMENT p) (of_int 0) = false ->
      Forall (fun traj => traj <> []) matrix ->
      exists growths, final_growths p matrix = Ok growths)
     /\ forall growths,
         final_growths p matrix = Ok growths ->
         length growths = length matrix
         /\ Forall2 (fun traj g =>
                       exists last_value,
                         last traj = Some last_value
                         /\ g = sub (mul (div last_value (INITIAL_INVESTMENT p))
                                        (of_int 100))
                                   (of_int 100))
                    matrix growths)
  /\ (forall (num : Type) (A : Arith num) (seed : nat -> nat) (p : Params num)
             (matrix : list (list num)),
        simulated_data seed p = Ok matrix ->
        (eqb (INITIAL_INVESTMENT p) (of_int 0) = false ->
         exists growths, final_growths p matrix = Ok growths)
        /\ forall growths,
            final_growths p matrix = Ok growths ->
            length growths = TRIALS p
            /\ Forall2 (fun traj g =>
                          exists last_value,
                            nth_error traj (YEARS_TO_SIMULATE p) = Some last_value
                            /\ g = sub (mul (div last_value (INITIAL_INVESTMENT p))
                                           (of_int 100))
                                      (of_int 100))
                       matrix growths)
  /\ (forall (p : Params Qc) (matrix : list (list Qc)) (growths : list Qc),
        final_growths p matrix = Ok growths ->
        Forall2 (fun traj g =>
                   exists last_value,
                     last traj = Some last_value
                     /\ g = mul (sub (div last_value (INITIAL_INVESTMENT p))
                                    (of_int 1))
                               (of_int 100))
                matrix growths).
Proof.
  split; [|split].
  - intros num A p matrix. split.
    + apply final_growths_total.
    + intros growths G. apply final_growths_each in G.
      split; [symmetry; eapply Forall2_length, G | exact G].
  - intros num A seed p matrix D.
    destruct (simulated_data_shape seed p matrix D) as (L & F).
    pose proof (simulated_data_lengths seed p matrix D) as Ls.
    split; [intros NI; exact (final_growths_total p matrix NI F)|].
    intros growths G. apply final_growths_each in G.
    split; [apply Forall2_length in G; congruence|].
    clear D L F. induction G as [|traj g matrix growths (x & Lx & ->) G IH];
      constructor.
    + exists x. split; [|reflexivity].
      apply last_nth_error; [|exact Lx].
      inversion Ls; subst. lia.
    + apply IH. now inversion Ls.
  - intros p matrix growths G. apply final_growths_each in G.
    eapply Forall2_impl; [exact G|].
    intros traj g (x & L & ->). exists x. split; [exact L|].
    cbn [add sub mul div Exact]. apply growth_forms.
Qed.

(** ** The claims at concrete inputs, in binary64 *)

(** Two floats that [==] tells apart, the first of them a number, are
    different. *)
Lemma float_neq (x y : float) :
  PrimFloat.eqb x x = true -> PrimFloat.eqb x y = false -> x <> y.
Proof. intros R E ->. congruence. Qed.

(** In binary64 the factored form of C1 is another number: the weights 0.7
    and 0.3, 100 invested, and the returns 0.5 and -0.25, which the closes
    100, 150 and 100, 75 give exactly, as [p_curr / p_prev - 1] and as
    [(p_curr - p_prev) / p_prev] alike. *)
Lemma factored_form_differs_binary64 :
  map (fun item => get_yearly_returns (fst item)) (PORTFOLIO two_closes)
  = [Ok [0.5%float]; Ok [(-0.25)%float]]
  /\ div (sub 150%float 100%float) 100%float = 0.5%float
  /\ div (sub 75%float 100%float) 100%float = (-0.25)%float
  /\ simulated_data linear_seed two_closes = Ok [[100; 127.5]]%float
  /\ mul 100%float
       (add (of_int 1)
          (fold_left (fun acc ir => add acc (mul (snd (fst ir)) (snd ir)))
                     (combine (PORTFOLIO two_closes) [0.5; -0.25]%float) (of_int 0)))
     = 127.49999999999999%float
  /\ 127.5%float <> 127.49999999999999%float.
Proof.
  repeat split; try (vm_compute; reflexivity).
  apply float_neq; vm_compute; reflexivity.
Qed.

(** In binary64 the value of year 0 of C3 is not the initial investment:
    the weights 7/16 and 9/16, whose sum is exactly 1, and 1000.1
    invested. *)
Lemma year0_differs_binary64 :
  weights_sum sixteenths = 1%float
  /\ INITIAL_INVESTMENT sixteenths = 1000.1%float
  /\ simulated_data linear_seed sixteenths = Ok [[1000.0999999999999%float]]
  /\ nth_error [1000.0999999999999%float] 0 <> Some (INITIAL_INVESTMENT sixteenths).
Proof.
  repeat split; try (vm_compute; reflexivity).
  intros E. apply (inj Some) in E. revert E.
  apply float_neq; vm_compute; reflexivity.
Qed.

(** The same with the script's own [portfolio2], whose weights 0.7 and 0.3
    add up to 1.0 in binary64, and 3 invested. *)
Lemma year0_differs_portfolio2 :
  weights_sum three_units = 1%float
  /\ simulated_data linear_seed three_units = Ok [[2.9999999999999996%float]]
  /\ 2.9999999999999996%float <> INITIAL_INVESTMENT three_units.
Proof.
  repeat split; try (vm_compute; reflexivity).
  apply float_neq; vm_compute; reflexivity.
Qed.

(** In binary64 the two expressions of C4 are different numbers: a
    trajectory that ends at 110 from 100 invested. *)
Lemma final_growth_forms_differ_binary64 :
  final_growths one_asset [[100; 110]%float] = Ok [10.000000000000014%float]
  /\ mul (sub (div 110%float (INITIAL_INVESTMENT one_asset)) (of_int 1)) (of_int 100)
     = 10.000000000000009%float
  /\ 10.000000000000014%float <> 10.000000000000009%float.
Proof.
  repeat split; try (vm_compute; reflexivity).
  apply float_neq; vm_compute; reflexivity.
Qed.

(** On the empty distribution the call of C6 without bounds fails at the
    division, not at a comparison. *)
Lemma no_bounds_on_empty_distribution :
  growth_probability ([] : list float) None None = Raise ZeroDivisionError
  /\ growth_probability ([] : list float) None None
     <> Raise (raised_as InvalidRangeError).
Proof. split; [reflexivity | discriminate]. Qed.

(** With a single close, fewer than the two of C7, [get_yearly_returns]
    does not fail: it returns the empty pool.  And in binary64 the closes
    100, 110, 99 do not give the returns 0.10 and -0.10. *)
Lemma one_close_returns_empty_pool :
  length (yearly_closes eth) = 1
  /\ get_yearly_returns eth = Ok []
  /\ (forall e, get_yearly_returns eth <> Raise e)
  /\ get_yearly_returns (mkAsset "AAPL" [100; 110; 99]%float)
     = Ok [0.10000000000000009; -0.09999999999999998]%float
  /\ 0.10000000000000009%float <> 0.1%float
  /\ (-0.09999999999999998)%float <> (-0.1)%float.
Proof.
  repeat split; try (vm_compute; reflexivity).
  - intros e. discriminate.
  - apply float_neq; vm_compute; reflexivity.
  - apply float_neq; vm_compute; reflexivity.
Qed.

(** With an empty pool and no year to simulate, the run of C8 does not
    fail: no draw is ever made.  And with one year to simulate it fails
    when the first trial has begun: the value of year 0 is computed. *)
Lemma empty_pool_without_years_completes :
  yearly_returns (short_history 0) = Ok {[ "ETH-USD"%string := [] ]}
  /\ simulated_data linear_seed (short_history 0) = Ok [[100%float]]
  /\ (forall e, fst (simulation linear_seed (short_history 0)
                       {[ "ETH-USD"%string := [] ]} initial_state) <> Raise e)
  /\ yearly_returns (short_history 1) = Ok {[ "ETH-USD"%string := [] ]}
  /\ fst (simulation linear_seed (short_history 1)
            {[ "ETH-USD"%string := [] ]} initial_state) = Raise IndexError
  /\ current_sim_data (snd (simulation linear_seed (short_history 1)
                              {[ "ETH-USD"%string := [] ]} initial_state))
     = [100%float].
Proof.
  repeat split; try (vm_compute; reflexivity).
  intros e. vm_compute. discriminate.
Qed.

(** In binary64 the two percentages of C9 do not add up to 100 although no
    element equals the threshold: the distribution 1, 3, 3 and the
    threshold 2. *)
Lemma complement_differs_binary64 :
  growth_probability [1; 3; 3]%float None (Some 2%float) = Ok 33.333333333333329%float
  /\ growth_probability [1; 3; 3]%float (Some 2%float) None
     = Ok 66.666666666666657%float
  /\ count_if (fun g => eqb g 2%float) [1; 3; 3]%float = 0
  /\ sub (of_int 100)
         (div (mul (of_int 100) (of_int (Z.of_nat 0)))
              (of_int (Z.of_nat (length [1; 3; 3]%float))))
     = 100%float
  /\ add 33.333333333333329%float 66.666666666666657%float <> 100%float.
Proof.
  repeat split; try (vm_compute; reflexivity).
  apply float_neq; vm_compute; reflexivity.
Qed.

(** A not-a-number is neither below nor above nor equal to a threshold. *)
Lemma complement_misses_nan :
  growth_probability [PrimFloat.nan] None (Some 0%float) = Ok 0%float
  /\ growth_probability [PrimFloat.nan] (Some 0%float) None = Ok 0%float
  /\ count_if (fun g => eqb g 0%float) [PrimFloat.nan] = 0.
Proof. repeat split; vm_compute; reflexivity. Qed.

(** ** The theorems at concrete inputs *)

Lemma rebalanced_every_year_witness :
  simulation linear_seed demo demo_returns initial_state = (Ok tt, demo_state)
  /\ exists old_value new_value rs,
       nth_error [100; 113; 136.55878787878788]%float (2 - 1) = Some old_value
       /\ nth_error [100; 113; 136.55878787878788]%float 2 = Some new_value
       /\ drawn_from linear_seed demo_returns
            ((0 * YEARS_TO_SIMULATE demo + (2 - 1)) * length (PORTFOLIO demo))
            (PORTFOLIO demo) rs
       /\ new_value
          = add old_value
              (fold_left
                 (fun acc ir => add acc (mul (mul old_value (snd (fst ir))) (snd ir)))
                 (combine (PORTFOLIO demo) rs) (of_int 0)).
Proof.
  split; [vm_compute; reflexivity|].
  apply (proj2 (proj1 rebalanced_every_year float F64 linear_seed demo demo_returns)
           demo_state).
  - vm_compute; reflexivity.
  - vm_compute; reflexivity.
  - cbn; lia.
Defined.

Lemma matrix_shape_witness :
  (exists s', simulation linear_seed demo demo_returns initial_state = (Ok tt, s'))
  /\ length (data demo_state) = TRIALS demo
  /\ Forall (fun traj => length traj = YEARS_TO_SIMULATE demo + 1) (data demo_state).
Proof.
  split.
  - apply (proj1 (matrix_shape linear_seed demo demo_returns)).
    repeat constructor; eexists; (split; [cbv; reflexivity | discriminate]).
  - apply (proj2 (matrix_shape linear_seed demo demo_returns) demo_state).
    vm_compute; reflexivity.
Defined.

Lemma year0_value_of_every_trial_witness :
  (exists s', simulation linear_seed demo demo_returns initial_state = (Ok tt, s'))
  /\ (forall traj, In traj (data demo_state) ->
        nth_error traj 0
        = Some (add (fold_left
                       (fun acc item => add acc (mul (INITIAL_INVESTMENT demo) (snd item)))
                       (PORTFOLIO demo) (of_int 0))
                    (of_int 0)))
  /\ weights_sum demo_exact = of_int 1
  /\ forall traj, In traj (data demo_exact_state) ->
       nth_error traj 0 = Some (Q2Qc 100).
Proof.
  assert (W : weights_sum demo_exact = of_int 1)
    by (apply Qc_is_canon; reflexivity).
  split; [|split; [|split; [exact W|]]].
  - apply (proj1 (proj1 year0_value_of_every_trial float F64 linear_seed demo
                    demo_returns)).
    repeat constructor; eexists; (split; [cbv; reflexivity | discriminate]).
  - apply (proj2 (proj1 year0_value_of_every_trial float F64 linear_seed demo
                    demo_returns) demo_state).
    vm_compute; reflexivity.
  - apply (proj2 year0_value_of_every_trial linear_seed demo_exact
             demo_exact_returns demo_exact_state W).
    vm_compute; reflexivity.
Defined.

Lemma final_growths_of_trajectories_witness :
  simulated_data linear_seed demo
  = Ok [[100; 113; 136.55878787878788]; [100; 99; 111.87]]%float
  /\ (exists growths,
        final_growths demo [[100; 113; 136.55878787878788]; [100; 99; 111.87]]%float
        = Ok growths)
  /\ length [36.558787878787882; 11.870000000000005]%float = TRIALS demo
  /\ Forall2 (fun traj g =>
                exists last_value,
                  nth_error traj (YEARS_TO_SIMULATE demo) = Some last_value
                  /\ g = sub (mul (div last_value (INITIAL_INVESTMENT demo))
                                 (of_int 100))
                            (of_int 100))
             [[100; 113; 136.55878787878788]; [100; 99; 111.87]]%float
             [36.558787878787882; 11.870000000000005]%float.
Proof.
  assert (D : simulated_data linear_seed demo
              = Ok [[100; 113; 136.55878787878788]; [100; 99; 111.87]]%float)
    by (vm_compute; reflexivity).
  split; [exact D|split].
  - apply (proj1 (proj1 (proj2 final_growths_of_trajectories) float F64 linear_seed
                    demo _ D)).
    vm_compute; reflexivity.
  - apply (proj2 (proj1 (proj2 final_growths_of_trajectories) float F64 linear_seed
                    demo _ D) [36.558787878787882; 11.870000000000005]%float).
    vm_compute; reflexivity.
Defined.

Lemma growth_probability_modes_witness :
  growth_probability [5; 10; 15]%float (Some 5%float) (Some 15%float)
    = Ok (percentage (count_if (fun g => ltb 5%float g && ltb g 15%float)
                               [5; 10; 15]%float) 3)
  /\ growth_probability [5; 10; 15]%float None (Some 15%float)
    = Ok (percentage (count_if (fun g => ltb g 15%float) [5; 10; 15]%float) 3)
  /\ growth_probability [5; 10; 15]%float (Some 5%float) None
    = Ok (percentage (count_if (fun g => gtb g 5%float) [5; 10; 15]%float) 3).
Proof.
  apply (growth_probability_modes [5; 10; 15]%float 5%float 15%float).
  discriminate.
Defined.

Lemma growth_probability_failures_witness :
  growth_probability [5; 10; 15]%float None None = Raise TypeError.
Proof.
  apply (proj1 (@growth_probability_failures float F64)). discriminate.
Defined.

Lemma get_yearly_returns_cases_witness :
  sub (div (Q2Qc 110) (Q2Qc 100)) (of_int 1)
  = div (sub (Q2Qc 110) (Q2Qc 100)) (Q2Qc 100).
Proof.
  apply (proj1 (proj2 (proj2 get_yearly_returns_cases)) (Q2Qc 100) (Q2Qc 110)).
  discriminate.
Defined.

Lemma empty_pool_fails_first_trial_witness :
  exists s', simulation linear_seed (short_history 1)
               {[ "ETH-USD"%string := [] ]} initial_state = (Raise IndexError, s')
             /\ data s' = []
             /\ current_sim_data s' = [year0_value (short_history 1)].
Proof.
  assert (Y : yearly_returns (short_history 1) = Ok {[ "ETH-USD"%string := [] ]})
    by (vm_compute; reflexivity).
  assert (E : exists item, In item (PORTFOLIO (short_history 1))
                /\ ({[ "ETH-USD"%string := [] ]} : gmap string (list float))
                     !! ticker (fst item) = Some []).
  { exists (eth, 1%float). split; [left; reflexivity | vm_compute; reflexivity]. }
  apply (proj1 (empty_pool_fails_first_trial linear_seed (short_history 1)
                  {[ "ETH-USD"%string := [] ]} Y E)).
  - cbn; lia.
  - cbn; lia.
Defined.

Lemma complementary_probabilities_exact_witness :
  exists below above : Qc,
    growth_probability [Q2Qc 1; Q2Qc 2; Q2Qc 3] None (Some (Q2Qc 2)) = Ok below
    /\ growth_probability [Q2Qc 1; Q2Qc 2; Q2Qc 3] (Some (Q2Qc 2)) None = Ok above
    /\ (below + above
        = of_int 100
          - of_int 100
            * of_int (Z.of_nat (count_if (fun g => eqb g (Q2Qc 2))
                                         [Q2Qc 1; Q2Qc 2; Q2Qc 3]))
            / of_int (Z.of_nat (length [Q2Qc 1; Q2Qc 2; Q2Qc 3])))%Qc.
Proof.
  apply (complementary_probabilities_exact [Q2Qc 1; Q2Qc 2; Q2Qc 3] (Q2Qc 2)).
  discriminate.
Defined.

Lemma outperformance_against_future_value_witness :
  exists x data growths,
    iter_pow (add (of_int 1) (BENCHMARK_ANNUAL_RETURN demo)) (YEARS_TO_SIMULATE demo)
    = Ok x
    /\ simulated_data linear_seed demo = Ok data
    /\ plot_curves_quietly (map (percent_increase demo) data) = Ok tt
    /\ final_growths demo data = Ok growths
    /\ plot_bars_quietly growths
         (final_growth_frequencies demo (final_growth_counts growths)) = Ok tt
    /\ length growths = TRIALS demo /\ TRIALS demo <> 0
    /\ growth_probability growths (Some (mul (INITIAL_INVESTMENT demo) x)) None
       = Ok 0%float
    /\ mkReport [[100; 113; 136.55878787878788]; [100; 99; 111.87]]%float
         [36.558787878787882; 11.870000000000005]%float 0%float
       = mkReport data growths
           (percentage
              (count_if (fun g => gtb g (mul (INITIAL_INVESTMENT demo) x)) growths)
              (length growths)).
Proof.
  apply (proj1 (proj1 (outperformance_against_future_value iter_pow linear_seed
                         plot_curves_quietly plot_bars_quietly demo)
                  (mkReport [[100; 113; 136.55878787878788]; [100; 99; 111.87]]
                            [36.558787878787882; 11.870000000000005] 0)%float)).
  vm_compute; reflexivity.
Defined.

(** ** The dict of return pools *)

Section YearlyReturns.

Context {num : Type} `{Arith num}.

Lemma get_yearly_returns_some (asset : Asset num) :
  yearly_closes asset <> [] ->
  exists pool, get_yearly_returns asset = Ok pool
               /\ length (yearly_closes asset) = S (length pool).
Proof.
  unfold get_yearly_returns, pct_change.
  destruct (yearly_closes asset) as [|first rest]; [congruence|]. intros _.
  cbn [pop0 res_bind]. eexists. split; [reflexivity|].
  cbn [length]. f_equal. clear. revert first.
  induction rest as [|c rest IH]; intros first; cbn [pct_change_from length];
    [reflexivity | f_equal; apply IH].
Qed.

Lemma get_yearly_returns_none (asset : Asset num) :
  yearly_closes asset = [] -> get_yearly_returns asset = Raise IndexError.
Proof. unfold get_yearly_returns. now intros ->. Qed.

Lemma get_yearly_returns_cases_dec (asset : Asset num) :
  (yearly_closes asset = [] /\ get_yearly_returns asset = Raise IndexError)
  \/ (exists pool, get_yearly_returns asset = Ok pool
                   /\ length (yearly_closes asset) = S (length pool)).
Proof.
  destruct (yearly_closes asset) as [|first rest] eqn:E.
  - left. split; [reflexivity | now apply get_yearly_returns_none].
  - right. rewrite <- E. apply get_yearly_returns_some. congruence.
Qed.

Lemma build_yearly_returns_total (items : list (Asset num * num))
    (m : gmap string (list num)) :
  Forall (fun item : Asset num * num => yearly_closes (fst item) <> []) items ->
  exists yr, build_yearly_returns items m = Ok yr.
Proof.
  revert m. induction items as [|[asset w] items IH]; intros m F;
    cbn [build_yearly_returns].
  - eauto.
  - inversion F as [|? ? Hne F']; subst.
    destruct (get_yearly_returns_some asset Hne) as (pool & -> & _).
    cbn [res_bind]. apply IH, F'.
Qed.

Lemma build_yearly_returns_raise (items : list (Asset num * num))
    (m : gmap string (list num)) :
  Exists (fun item : Asset num * num => yearly_closes (fst item) = []) items ->
  build_yearly_returns items m = Raise IndexError.
Proof.
  revert m. induction items as [|[asset w] items IH]; intros m E;
    cbn [build_yearly_returns].
  - inversion E.
  - destruct (get_yearly_returns_cases_dec asset) as [[_ ->]|(pool & -> & L)];
      [reflexivity|].
    cbn [res_bind]. apply IH.
    inversion E as [? ? Hd|? ? Ht]; subst; [|exact Ht].
    cbn [fst] in Hd. rewrite Hd in L. discriminate L.
Qed.

Lemma build_yearly_returns_raise_inv (items : list (Asset num * num))
    (m : gmap string (list num)) (e : PyError) :
  build_yearly_returns items m = Raise e ->
  e = IndexError
  /\ Exists (fun item : Asset num * num => yearly_closes (fst item) = []) items.
Proof.
  revert m. induction items as [|[asset w] items IH]; intros m;
    cbn [build_yearly_returns]; [discriminate|].
  destruct (get_yearly_returns_cases_dec asset) as [[E ->]|(pool & -> & L)];
    cbn [res_bind].
  - intros [= <-]. split; [reflexivity|]. now constructor.
  - intros B. destruct (IH _ B) as (-> & Ex). split; [reflexivity|].
    now apply Exists_cons_tl.
Qed.

(** A ticker no asset of [items] carries keeps the entry it had. *)
Lemma build_yearly_returns_other (items : list (Asset num * num))
    (m yr : gmap string (list num)) (k : string) :
  build_yearly_returns items m = Ok yr ->
  Forall (fun item : Asset num * num => ticker (fst item) <> k) items ->
  yr !! k = m !! k.
Proof.
  revert m. induction items as [|[asset w] items IH]; intros m;
    cbn [build_yearly_returns].
  - now intros [= <-].
  - destruct (get_yearly_returns asset) as [pool|e]; cbn [res_bind]; [|discriminate].
    intros B F. inversion F as [|? ? Hne F']; subst. cbn [fst] in Hne.
    rewrite (IH _ B F'). now apply lookup_insert_ne.
Qed.

(** Where an entry of the finished dict comes from. *)
Lemma build_yearly_returns_origin (items : list (Asset num * num))
    (m yr : gmap string (list num)) (k : string) (pool : list num) :
  build_yearly_returns items m = Ok yr ->
  yr !! k = Some pool ->
  m !! k = Some pool
  \/ exists item, In item items /\ ticker (fst item) = k
                  /\ get_yearly_returns (fst item) = Ok pool.
Proof.
  revert m. induction items as [|[asset w] items IH]; intros m;
    cbn [build_yearly_returns].
  - intros [= <-] L. now left.
  - destruct (get_yearly_returns asset) as [r|e] eqn:G; cbn [res_bind]; [|discriminate].
    intros B L. destruct (IH _ B L) as [Hm|(item & Hin & Ht & Hg)].
    + destruct (decide (ticker asset = k)) as [<-|Hne].
      * rewrite lookup_insert_eq in Hm. injection Hm as <-.
        right. exists (asset, w). cbn [fst]. split; [now left | auto].
      * rewrite lookup_insert_ne in Hm by exact Hne. now left.
    + right. exists item. split; [now right | auto].
Qed.

Lemma build_yearly_returns_last (before after : list (Asset num * num))
    (item : Asset num * num) (m yr : gmap string (list num)) :
  build_yearly_returns (before ++ item :: after) m = Ok yr ->
  Forall (fun other : Asset num * num => ticker (fst other) <> ticker (fst item))
         after ->
  exists pool, get_yearly_returns (fst item) = Ok pool
               /\ yr !! ticker (fst item) = Some pool.
Proof.
  revert m. induction before as [|[asset w] before IH]; intros m;
    cbn [app build_yearly_returns].
  - destruct item as [asset w]. cbn [fst].
    destruct (get_yearly_returns asset) as [pool|e]; cbn [res_bind]; [|discriminate].
    intros B F. exists pool. split; [reflexivity|].
    rewrite (build_yearly_returns_other _ _ _ _ B F). apply lookup_insert_eq.
  - destruct (get_yearly_returns asset) as [pool|e]; cbn [res_bind]; [|discriminate].
    apply IH.
Qed.

End YearlyReturns.

Section YearlyReturnsOfPortfolio.

Context {num : Type} `{Arith num}.
Variable p : Params num.

(** X1.  Building the dict of return pools succeeds when every asset of the
    portfolio has at least one yearly close, and fails with IndexError, at
    [pop(0)], as soon as one asset has none. *)
Theorem yearly_returns_outcome :
  (Forall (fun item : Asset num * num => yearly_closes (fst item) <> [])
          (PORTFOLIO p) ->
   exists yr, yearly_returns p = Ok yr)
  /\ (Exists (fun item : Asset num * num => yearly_closes (fst item) = [])
             (PORTFOLIO p) ->
      yearly_returns p = Raise IndexError).
Proof.
  split.
  - apply build_yearly_returns_total.
  - apply build_yearly_returns_raise.
Qed.

(** X2.  In the finished dict the keys are exactly the tickers of the
    portfolio, and each ticker holds the returns of the last asset, in
    portfolio order, that carries it. *)
Theorem yearly_returns_lookup (yr : gmap string (list num)) :
  yearly_returns p = Ok yr ->
  (forall k, is_Some (yr !! k)
             <-> exists item, In item (PORTFOLIO p) /\ ticker (fst item) = k)
  /\ (forall before item after,
        PORTFOLIO p = before ++ item :: after ->
        Forall (fun other : Asset num * num =>
                  ticker (fst other) <> ticker (fst item)) after ->
        exists pool, get_yearly_returns (fst item) = Ok pool
                     /\ yr !! ticker (fst item) = Some pool).
Proof.
  unfold yearly_returns. intros B. split.
  - intros k. split.
    + intros [pool L].
      destruct (build_yearly_returns_origin _ _ _ _ _ B L)
        as [Hm|(item & Hin & Ht & _)].
      * rewrite lookup_empty in Hm. discriminate Hm.
      * eauto.
    + intros (item & Hin & <-).
      destruct (build_yearly_returns_keys _ _ _ B) as (_ & F).
      rewrite List.Forall_forall in F. now apply F.
  - intros before item after E F. rewrite E in B.
    eapply build_yearly_returns_last; eassumption.
Qed.

End YearlyReturnsOfPortfolio.

(** ** How a run can fail *)

Section Failures.

Context {num : Type} `{Arith num}.
Variable seed : nat -> nat.
Variable p : Params num.

Lemma draw_error_cause (returns_of : gmap string (list num))
    (items : list (Asset num * num)) (e : PyError) :
  draw_error returns_of items = Some e ->
  exists item, In item items
    /\ ((e = KeyError /\ returns_of !! ticker (fst item) = None)
        \/ (e = IndexError /\ returns_of !! ticker (fst item) = Some [])).
Proof.
  induction items as [|item items IH]; cbn [draw_error]; [discriminate|].
  destruct (returns_of !! ticker (fst item)) as [[|x pool]|] eqn:L.
  - intros [= <-]. exists item. split; [now left | right; auto].
  - intros D. destruct (IH D) as (bad & Hin & Hbad).
    exists bad. split; [now right | exact Hbad].
  - intros [= <-]. exists item. split; [now left | left; auto].
Qed.

Lemma trials_from_raise_cause (returns_of : gmap string (list num)) (e : PyError) :
  trials_from seed p returns_of 0 (TRIALS p) = Raise e ->
  TRIALS p <> 0 /\ YEARS_TO_SIMULATE p <> 0
  /\ draw_error returns_of (PORTFOLIO p) = Some e.
Proof.
  intros T. pose proof (trials_from_outcome seed p returns_of (TRIALS p) 0) as O.
  unfold trial_error in O.
  destruct (Nat.eqb_spec (TRIALS p) 0) as [E0|N0].
  - destruct O as (ts & O). congruence.
  - destruct (Nat.eqb_spec (YEARS_TO_SIMULATE p) 0) as [E1|N1].
    + destruct O as (ts & O). congruence.
    + destruct (draw_error returns_of (PORTFOLIO p)) as [e'|].
      * rewrite O in T. injection T as <-. auto.
      * destruct O as (ts & O). congruence.
Qed.

(** X3.  Whatever the dict of pools, a simulation that fails has failed in
    its first trial: [data] is still empty, the run has at least one trial
    and one year after year 0, and some asset of the portfolio either has
    no pool (KeyError) or an empty one (IndexError). *)
Theorem simulation_failure (returns_of : gmap string (list num))
    (e : PyError) (s' : State num) :
  simulation seed p returns_of initial_state = (Raise e, s') ->
  data s' = []
  /\ 1 <= TRIALS p /\ 1 <= YEARS_TO_SIMULATE p
  /\ exists item, In item (PORTFOLIO p)
       /\ ((e = KeyError /\ returns_of !! ticker (fst item) = None)
           \/ (e = IndexError /\ returns_of !! ticker (fst item) = Some [])).
Proof.
  intros S. destruct (simulation_raise_data _ _ _ _ _ S) as (T & D).
  destruct (trials_from_raise_cause _ _ T) as (NT & NY & DE).
  split; [exact D|]. split; [lia|]. split; [lia|].
  now apply draw_error_cause.
Qed.

Lemma final_growths_raise (data : list (list num)) (e : PyError) :
  final_growths p data = Raise e ->
  (e = IndexError /\ Exists (fun traj => traj = []) data)
  \/ (e = ZeroDivisionError /\ eqb (INITIAL_INVESTMENT p) (of_int 0) = true).
Proof.
  induction data as [|traj data IH]; cbn [final_growths]; [discriminate|].
  unfold py_last, py_div.
  destruct (last traj) as [x|] eqn:L; cbn [res_bind].
  - destruct (eqb (INITIAL_INVESTMENT p) (of_int 0)) eqn:Z; cbn [res_bind].
    + intros [= <-]. right. auto.
    + destruct (final_growths p data) as [gs|e']; cbn [res_bind]; [discriminate|].
      intros [= <-]. destruct (IH eq_refl) as [(-> & Ex)|R]; [|now right].
      left. split; [reflexivity | now apply Exists_cons_tl].
  - intros [= <-]. left. split; [reflexivity|].
    apply Exists_cons_hd. now apply last_None.
Qed.

Lemma growth_probability_above_raise (dist : list num) (mn : num) (e : PyError) :
  growth_probability dist (Some mn) None = Raise e ->
  e = ZeroDivisionError /\ dist = [].
Proof.
  destruct dist as [|g dist].
  - cbn. intros [= <-]. auto.
  - rewrite growth_probability_above by discriminate. discriminate.
Qed.

(** X4.  How the computation of [data] and [final_growths] can fail.  The
    simulation, the building of the pools included, fails with IndexError
    only, never with KeyError, and then some asset has at most one yearly
    close (none: [pop(0)] fails; one: its pool is empty and
    [random.choice] fails).  On the matrix of a completed simulation
    [final_growths] fails with ZeroDivisionError only, and then the initial
    investment is zero.  With two closes or more for every asset and an
    initial investment that is not zero both complete. *)
Theorem data_and_growths_outcome :
  (forall e, simulated_data seed p = Raise e ->
     e = IndexError
     /\ Exists (fun item : Asset num * num => length (yearly_closes (fst item)) <= 1)
               (PORTFOLIO p))
  /\ (forall data e,
        simulated_data seed p = Ok data ->
        final_growths p data = Raise e ->
        e = ZeroDivisionError /\ eqb (INITIAL_INVESTMENT p) (of_int 0) = true)
  /\ (Forall (fun item : Asset num * num => 2 <= length (yearly_closes (fst item)))
             (PORTFOLIO p) ->
      eqb (INITIAL_INVESTMENT p) (of_int 0) = false ->
      exists data growths,
        simulated_data seed p = Ok data /\ final_growths p data = Ok growths).
Proof.
  assert (A : forall e, simulated_data seed p = Raise e ->
     e = IndexError
     /\ Exists (fun item : Asset num * num => length (yearly_closes (fst item)) <= 1)
               (PORTFOLIO p)).
  { intros e. unfold simulated_data.
    destruct (yearly_returns p) as [yr|e0] eqn:Y; cbn [res_bind].
    - destruct (simulation seed p yr initial_state) as [[[]|e1] s'] eqn:S;
        [discriminate|].
      intros [= <-].
      destruct (simulation_raise_data _ _ _ _ _ S) as (T & _).
      destruct (trials_from_raise_cause _ _ T) as (_ & _ & DE).
      destruct (draw_error_cause _ _ _ DE) as (item & Hin & [(-> & L)|(-> & L)]).
      + exfalso. destruct (build_yearly_returns_keys _ _ _ Y) as (_ & F).
        rewrite List.Forall_forall in F. destruct (F item Hin) as [pool Hp].
        congruence.
      + split; [reflexivity|].
        destruct (build_yearly_returns_origin _ _ _ _ _ Y L)
          as [Hm|(other & Hin' & _ & Hg)].
        { rewrite lookup_empty in Hm. discriminate Hm. }
        apply List.Exists_exists. exists other. split; [exact Hin'|].
        destruct (get_yearly_returns_cases_dec (fst other))
          as [[_ R]|(pool & R & Len)]; [congruence|].
        rewrite Hg in R. injection R as <-. cbn [length] in Len. lia.
    - intros [= <-].
      destruct (build_yearly_returns_raise_inv _ _ _ Y) as (-> & Ex).
      split; [reflexivity|].
      apply List.Exists_exists in Ex as (item & Hin & E0).
      apply List.Exists_exists. exists item. split; [exact Hin|].
      rewrite E0. cbn. lia. }
  assert (B : forall data e,
        simulated_data seed p = Ok data ->
        final_growths p data = Raise e ->
        e = ZeroDivisionError /\ eqb (INITIAL_INVESTMENT p) (of_int 0) = true).
  { intros data e. unfold simulated_data.
    destruct (yearly_returns p) as [yr|e0]; cbn [res_bind]; [|discriminate].
    destruct (simulation seed p yr initial_state) as [[[]|e1] s'] eqn:S;
      [|discriminate].
    intros [= <-] G. pose proof (simulation_ok_data _ _ _ _ S) as T.
    destruct (final_growths_raise _ _ G) as [(-> & Ex)|R]; [|exact R].
    exfalso. apply List.Exists_exists in Ex as (traj & Hin & ->).
    apply In_nth_error in Hin as (t & Ht).
    pose proof (trials_from_nth _ _ _ _ _ _ T t [] Ht) as Tr.
    apply trajectory_length in Tr. cbn [length] in Tr. lia. }
  split; [exact A|]. split; [exact B|].
  intros F NI. destruct (simulated_data seed p) as [data|e] eqn:D.
  - destruct (final_growths p data) as [gs|e] eqn:G; [eauto|].
    destruct (B data e eq_refl G) as (_ & Z). congruence.
  - exfalso. destruct (A e eq_refl) as (_ & Ex).
    apply List.Exists_exists in Ex as (item & Hin & Hle).
    rewrite List.Forall_forall in F. specialize (F item Hin). lia.
Qed.

End Failures.

(** ** The calls of random.choice during a run *)

Section Generator.

Context {num : Type} `{Arith num}.
Variable p : Params num.
Variable returns_of : gmap string (list num).

Lemma trials_loop_rng (seed : nat -> nat) (k first : nat) (s : State num) :
  let '(r, s') :=
    for_each (seq first k) (fun _ => trial_body seed p returns_of) s in
  r = Ok tt -> rng s' = rng s + k * (YEARS_TO_SIMULATE p * length (PORTFOLIO p)).
Proof.
  revert first s. induction k as [|k IH]; intros first s; cbn [seq for_each].
  - unfold ret. intros _. lia.
  - unfold bind.
    pose proof (trial_body_run seed p returns_of s) as T.
    destruct (trial_body seed p returns_of s) as [r1 s1].
    destruct (trajectory seed p returns_of (rng s)) as [t|e].
    + destruct T as (-> & _ & Hr).
      specialize (IH (S first) s1).
      destruct (for_each (seq (S first) k) _ s1) as [r2 s2].
      intros E. rewrite (IH E), Hr. lia.
    + destruct T as (-> & _). discriminate.
Qed.

(** X5.  A completed run has called [random.choice] exactly TRIALS *
    YEARS_TO_SIMULATE * len(PORTFOLIO) times: once per asset, year after
    year 0 and trial. *)
Theorem random_choice_calls (seed : nat -> nat) (s' : State num) :
  simulation seed p returns_of initial_state = (Ok tt, s') ->
  rng s' = TRIALS p * (YEARS_TO_SIMULATE p * length (PORTFOLIO p)).
Proof.
  intros S. unfold simulation in S.
  pose proof (trials_loop_rng seed (TRIALS p) 0 initial_state) as R.
  rewrite S in R. now rewrite (R eq_refl).
Qed.

Lemma trials_from_zero_years (seed : nat -> nat) (k pos : nat) :
  YEARS_TO_SIMULATE p = 0 ->
  trials_from seed p returns_of pos k = Ok (repeat [year0_value p] k).
Proof.
  intros Y. revert pos. induction k as [|k IH]; intros pos; cbn [trials_from repeat].
  - reflexivity.
  - unfold trajectory. rewrite Y. cbn [years_from res_bind]. now rewrite IH.
Qed.

(** X6.  With no year to simulate the run completes whatever the pools are,
    missing and empty ones included: every trajectory is the single value
    of year 0, the same for all trials, and the generator is not used. *)
Theorem zero_years_run (seed : nat -> nat) :
  YEARS_TO_SIMULATE p = 0 ->
  exists s', simulation seed p returns_of initial_state = (Ok tt, s')
             /\ data s' = repeat [year0_value p] (TRIALS p)
             /\ rng s' = 0.
Proof.
  intros Y. pose proof (simulation_run seed p returns_of) as R.
  pose proof (trials_loop_rng seed (TRIALS p) 0 initial_state) as G.
  unfold simulation in R, G |- *.
  destruct (for_each _ _ initial_state) as [r s'].
  rewrite (trials_from_zero_years seed _ _ Y) in R. destruct R as (-> & D).
  exists s'. split; [reflexivity|]. split; [exact D|].
  rewrite (G eq_refl), Y. cbn. lia.
Qed.

End Generator.

(** ** More about growth_probability *)

Section GrowthProbabilityOrder.

Context {num : Type} `{Arith num}.

Lemma count_if_permutation (test : num -> bool) (l l' : list num) :
  Permutation l l' -> count_if test l = count_if test l'.
Proof.
  unfold count_if. induction 1 as [|x l l' P IH|x y l|l l' l'' P IH P' IH'];
    cbn [List.filter].
  - reflexivity.
  - destruct (test x); cbn [length]; now rewrite IH.
  - destruct (test x), (test y); reflexivity.
  - now rewrite IH.
Qed.

Lemma count_if_le_length (test : num -> bool) (l : list num) :
  count_if test l <= length l.
Proof.
  unfold count_if. induction l as [|x l IH]; cbn [List.filter length]; [lia|].
  destruct (test x); cbn [length]; lia.
Qed.

Lemma count_if_monotone (t1 t2 : num -> bool) (l : list num) :
  (forall g, t1 g = true -> t2 g = true) -> count_if t1 l <= count_if t2 l.
Proof.
  intros I. unfold count_if. induction l as [|x l IH]; cbn [List.filter]; [lia|].
  destruct (t1 x) eqn:E1.
  - rewrite (I x E1). cbn [length]. lia.
  - destruct (t2 x); cbn [length]; lia.
Qed.

Lemma count_if_none (test : num -> bool) (l : list num) :
  (forall g, test g = false) -> count_if test l = 0.
Proof.
  intros N. unfold count_if. induction l as [|x l IH]; cbn [List.filter];
    [reflexivity|]. now rewrite N.
Qed.

(** X8.  [growth_probability] does not depend on the order of the
    distribution: a rearranged distribution gives the same result, value or
    failure, for the same bounds. *)
Theorem growth_probability_permutation (dist dist' : list num)
    (mn mx : option num) :
  Permutation dist dist' ->
  growth_probability dist mn mx = growth_probability dist' mn mx.
Proof.
  intros P. destruct dist as [|g dist].
  - apply Permutation_nil in P. now subst.
  - assert (N : g :: dist <> []) by discriminate.
    assert (N' : dist' <> []).
    { intros ->. apply Permutation_sym, Permutation_nil in P. discriminate P. }
    destruct mn as [mn|], mx as [mx|].
    + rewrite !growth_probability_between by assumption.
      now rewrite (count_if_permutation _ _ _ P), (Permutation_length P).
    + rewrite !growth_probability_above by assumption.
      now rewrite (count_if_permutation _ _ _ P), (Permutation_length P).
    + rewrite !growth_probability_below by assumption.
      now rewrite (count_if_permutation _ _ _ P), (Permutation_length P).
    + unfold growth_probability. now rewrite !count_loop_none by assumption.
Qed.

End GrowthProbabilityOrder.

Section GrowthProbabilityExact.

Local Open Scope Qc_scope.

Lemma exact_ltb_lt (x y : Qc) : @ltb Qc Exact x y = true <-> x < y.
Proof.
  cbn [ltb Exact]. rewrite Qclt_alt.
  destruct (x ?= y); split; congruence.
Qed.

Lemma exact_of_nat_le (a b : nat) :
  (a <= b)%nat -> @of_int Qc Exact (Z.of_nat a) <= @of_int Qc Exact (Z.of_nat b).
Proof.
  intros L. cbn [of_int Exact]. unfold Qcle. cbn [this Q2Qc].
  rewrite !Qred_correct. unfold Qle. cbn. lia.
Qed.

Lemma exact_inv_of_nat_nonneg (n : nat) : 0 <= / @of_int Qc Exact (Z.of_nat n).
Proof.
  cbn [of_int Exact]. unfold Qcle, Qcinv. cbn [this Q2Qc].
  rewrite !Qred_correct. apply Qinv_le_0_compat. unfold Qle. cbn. lia.
Qed.

Lemma exact_hundred_nonneg : 0 <= @of_int Qc Exact 100.
Proof.
  cbn [of_int Exact]. unfold Qcle. cbn [this Q2Qc].
  rewrite !Qred_correct. unfold Qle. cbn. lia.
Qed.

Lemma percentage_monotone (c1 c2 n : nat) :
  (c1 <= c2)%nat -> @percentage Qc Exact c1 n <= @percentage Qc Exact c2 n.
Proof.
  intros L. unfold percentage. cbn [mul div Exact]. unfold Qcdiv.
  apply Qcmult_le_compat_r; [|apply exact_hundred_nonneg].
  apply Qcmult_le_compat_r; [|apply exact_inv_of_nat_nonneg].
  now apply exact_of_nat_le.
Qed.

Lemma percentage_none (n : nat) : @percentage Qc Exact 0 n = 0.
Proof.
  unfold percentage. cbn [mul div Exact].
  replace (@of_int Qc Exact (Z.of_nat 0)) with 0 by (apply Qc_is_canon; reflexivity).
  unfold Qcdiv. ring.
Qed.

Lemma percentage_all (n : nat) :
  n <> 0%nat -> @percentage Qc Exact n n = @of_int Qc Exact 100.
Proof.
  intros N. unfold percentage. cbn [mul div Exact].
  assert (Z : @of_int Qc Exact (Z.of_nat n) <> 0)
    by (apply exact_of_int_neq_0; lia).
  field. exact Z.
Qed.

Lemma length_not_zero (dist : list Qc) : dist <> [] -> length dist <> 0%nat.
Proof. destruct dist; [congruence | discriminate]. Qed.

(** X9.  In exact arithmetic, whenever a bound is present and the
    distribution is not empty, the result is a percentage: it lies between
    0 and 100. *)
Theorem growth_probability_range (dist : list Qc) (mn mx : option Qc) :
  dist <> [] ->
  mn <> None \/ mx <> None ->
  exists v : Qc, growth_probability dist mn mx = Ok v
                 /\ 0 <= v /\ v <= of_int 100.
Proof.
  intros N B.
  assert (R : forall c, (c <= length dist)%nat ->
                0 <= @percentage Qc Exact c (length dist)
                /\ @percentage Qc Exact c (length dist) <= of_int 100).
  { intros c L. split.
    - rewrite <- (percentage_none (length dist)). apply percentage_monotone. lia.
    - rewrite <- (percentage_all (length dist)) by now apply length_not_zero.
      now apply percentage_monotone. }
  destruct mn as [mn|], mx as [mx|].
  - rewrite growth_probability_between by exact N. eexists. split; [reflexivity|].
    apply R, count_if_le_length.
  - rewrite growth_probability_above by exact N. eexists. split; [reflexivity|].
    apply R, count_if_le_length.
  - rewrite growth_probability_below by exact N. eexists. split; [reflexivity|].
    apply R, count_if_le_length.
  - destruct B; congruence.
Qed.

(** X10.  In exact arithmetic the share below a threshold grows with the
    threshold, and the share above it shrinks. *)
Theorem growth_probability_monotone (dist : list Qc) (X Y : Qc) :
  dist <> [] ->
  X <= Y ->
  exists below_X below_Y above_X above_Y : Qc,
    growth_probability dist None (Some X) = Ok below_X
    /\ growth_probability dist None (Some Y) = Ok below_Y
    /\ growth_probability dist (Some X) None = Ok above_X
    /\ growth_probability dist (Some Y) None = Ok above_Y
    /\ below_X <= below_Y /\ above_Y <= above_X.
Proof.
  intros N L.
  rewrite !growth_probability_below, !growth_probability_above by exact N.
  do 4 eexists. repeat (split; [reflexivity|]). split.
  - apply percentage_monotone, count_if_monotone. intros g.
    rewrite !exact_ltb_lt. intros G. eapply Qclt_le_trans; eassumption.
  - apply percentage_monotone, count_if_monotone. intros g. unfold gtb.
    rewrite !exact_ltb_lt. intros G. eapply Qcle_lt_trans; eassumption.
Qed.

Lemma count_between_split (a b : Qc) (dist : list Qc) :
  a < b ->
  (count_if (fun g => ltb g b) dist + count_if (fun g => gtb g a) dist
   = length dist + count_if (fun g => ltb a g && ltb g b) dist)%nat.
Proof.
  intros L. unfold count_if, gtb.
  induction dist as [|g dist IH]; cbn [List.filter length]; [reflexivity|].
  destruct (ltb g b) eqn:B, (ltb a g) eqn:A; cbn [andb length]; try lia.
  exfalso.
  assert (NB : ~ g < b) by (rewrite <- exact_ltb_lt; congruence).
  assert (NA : ~ a < g) by (rewrite <- exact_ltb_lt; congruence).
  apply Qcnot_lt_le in NB, NA.
  apply (Qclt_not_le _ _ L). eapply Qcle_trans; eassumption.
Qed.

(** X11.  In exact arithmetic, for bounds [a < b], the share below [b] and
    the share above [a] overlap exactly in the share strictly between the
    bounds: below(b) + above(a) - between(a, b) = 100. *)
Theorem growth_probability_overlap (dist : list Qc) (a b : Qc) :
  dist <> [] ->
  a < b ->
  exists below above between : Qc,
    growth_probability dist None (Some b) = Ok below
    /\ growth_probability dist (Some a) None = Ok above
    /\ growth_probability dist (Some a) (Some b) = Ok between
    /\ below + above - between = of_int 100.
Proof.
  intros N L.
  rewrite growth_probability_below, growth_probability_above,
    growth_probability_between by exact N.
  do 3 eexists. repeat (split; [reflexivity|]).
  pose proof (count_between_split a b dist L) as C.
  unfold percentage. cbn [mul div Exact].
  assert (Z : @of_int Qc Exact (Z.of_nat (length dist)) <> 0)
    by (apply exact_of_int_neq_0; apply length_not_zero in N; lia).
  assert (S : @of_int Qc Exact (Z.of_nat (count_if (fun g => ltb g b) dist))
              + @of_int Qc Exact (Z.of_nat (count_if (fun g => gtb g a) dist))
              = @of_int Qc Exact (Z.of_nat (length dist))
                + @of_int Qc Exact
                    (Z.of_nat (count_if (fun g => ltb a g && ltb g b) dist))).
  { rewrite <- !exact_of_int_add, <- !Nat2Z.inj_add, C. reflexivity. }
  revert Z S.
  generalize (@of_int Qc Exact (Z.of_nat (length dist))) as n.
  generalize (@of_int Qc Exact (Z.of_nat (count_if (fun g => ltb g b) dist))) as l.
  generalize (@of_int Qc Exact (Z.of_nat (count_if (fun g => gtb g a) dist))) as g.
  generalize (@of_int Qc Exact
                (Z.of_nat (count_if (fun g => ltb a g && ltb g b) dist))) as m.
  generalize (@of_int Qc Exact 100) as c.
  intros c m g l n Z S.
  replace l with (n + m - g) by (rewrite <- S; ring).
  field. exact Z.
Qed.

(** X12.  In exact arithmetic, bounds in the order the docstring asks for,
    [min_growth_pct >= max_growth_pct], select nothing: the result is 0 on
    every distribution that is not empty. *)
Theorem growth_probability_reversed_bounds (dist : list Qc) (mn mx : Qc) :
  dist <> [] ->
  mx <= mn ->
  growth_probability dist (Some mn) (Some mx) = Ok 0.
Proof.
  intros N L. rewrite growth_probability_between by exact N.
  rewrite count_if_none; [now rewrite percentage_none|].
  intros g. destruct (ltb mn g) eqn:A; [|reflexivity].
  destruct (ltb g mx) eqn:B; [|reflexivity]. exfalso.
  apply exact_ltb_lt in A, B.
  apply (Qclt_not_le _ _ (Qclt_trans _ _ _ A B)), L.
Qed.

End GrowthProbabilityExact.

(** ** Return series in exact arithmetic *)

Section ReturnSeriesExact.

Local Open Scope Qc_scope.

Lemma prices_from_pct_change (prev : Qc) (prices : list Qc) :
  prev <> 0 ->
  Forall (fun c => c <> 0) prices ->
  prices_from prev (pct_change_from prev prices) = prev :: prices.
Proof.
  revert prev. induction prices as [|c prices IH]; intros prev P F;
    cbn [pct_change_from prices_from]; [reflexivity|].
  inversion F as [|? ? C F']; subst. f_equal.
  replace (mul prev (add (of_int 1) (sub (div c prev) (of_int 1)))) with c.
  - now apply IH.
  - cbn [add sub mul div of_int Exact].
    replace (Q2Qc (inject_Z 1)) with 1 by (apply Qc_is_canon; reflexivity).
    field. exact P.
Qed.

(** X13.  In exact arithmetic the closes are recovered from the first close
    and the returns: growing the first close by each return in turn gives
    back the series, when no close is zero. *)
Theorem closes_recovered_from_returns (asset : Asset Qc) (first : Qc)
    (rest : list Qc) (returns : list Qc) :
  yearly_closes asset = first :: rest ->
  Forall (fun c => c <> 0) (first :: rest) ->
  get_yearly_returns asset = Ok returns ->
  prices_from first returns = first :: rest.
Proof.
  intros E F. unfold get_yearly_returns, pct_change. rewrite E.
  cbn [pop0 res_bind]. intros [= <-].
  inversion F; subst. now apply prices_from_pct_change.
Qed.

Lemma pct_change_from_scaled (c prev : Qc) (prices : list Qc) :
  c <> 0 -> prev <> 0 ->
  Forall (fun x => x <> 0) prices ->
  pct_change_from (c * prev) (map (Qcmult c) prices) = pct_change_from prev prices.
Proof.
  intros C. revert prev. induction prices as [|x prices IH]; intros prev P F;
    cbn [map pct_change_from]; [reflexivity|].
  inversion F as [|? ? X F']; subst. f_equal.
  - cbn [sub div of_int Exact]. f_equal. field. split; assumption.
  - now apply IH.
Qed.

(** X14.  In exact arithmetic the returns do not depend on the unit of the
    prices: multiplying every close by the same factor, not zero, leaves
    the returns as they are. *)
Theorem returns_scale_invariant (name name' : string) (c : Qc) (closes : list Qc) :
  c <> 0 ->
  Forall (fun x => x <> 0) closes ->
  get_yearly_returns (mkAsset name' (map (Qcmult c) closes))
  = get_yearly_returns (mkAsset name closes).
Proof.
  intros C F. unfold get_yearly_returns, pct_change. cbn [yearly_closes].
  destruct closes as [|first rest]; [reflexivity|]. cbn [map pop0 res_bind].
  inversion F; subst. f_equal. now apply pct_change_from_scaled.
Qed.

End ReturnSeriesExact.

(** ** The plotted curves and the histogram weights *)

Section Plot.

Context {num : Type} `{Arith num}.

Lemma last_map {A B : Type} (f : A -> B) (l : list A) :
  last (map f l) = option_map f (last l).
Proof.
  induction l as [|x [|y l] IH]; [reflexivity | reflexivity |].
  exact IH.
Qed.

Lemma list_count_bounds (l : list num) (iv : nat * num) :
  In iv (combine (seq 0 (length l)) l) ->
  1 <= list_count l (fst iv) (snd iv) <= length l.
Proof.
  intros Hin. unfold list_count. split.
  - assert (F : In iv (List.filter
                         (fun jx => Nat.eqb (fst jx) (fst iv) || eqb (snd jx) (snd iv))
                         (combine (seq 0 (length l)) l))).
    { apply filter_In. split; [exact Hin|]. now rewrite Nat.eqb_refl. }
    destruct (List.filter _ _); [destruct F | cbn [length]; lia].
  - etransitivity; [apply filter_length_le|].
    rewrite length_combine, length_seq. lia.
Qed.

Lemma final_growth_counts_each (final_growths : list num) :
  length (final_growth_counts final_growths) = length final_growths
  /\ Forall (fun c => 1 <= c <= length final_growths)
            (final_growth_counts final_growths).
Proof.
  unfold final_growth_counts. split.
  - rewrite length_map, length_combine, length_seq. lia.
  - apply List.Forall_forall. intros c Hc.
    apply in_map_iff in Hc as (iv & <- & Hin). now apply list_count_bounds.
Qed.

(** X15.  The histogram weights before scaling: there is one count per
    final growth, and every count is at least 1 (an entry always counts
    itself, a not-a-number too) and at most the number of trials. *)
Theorem final_growth_counts_bounds (final_growths : list num) :
  length (final_growth_counts final_growths) = length final_growths
  /\ Forall (fun c => 1 <= c <= length final_growths)
            (final_growth_counts final_growths).
Proof. exact (final_growth_counts_each final_growths). Qed.

End Plot.

Section PlotExact.

Local Open Scope Qc_scope.

(** X16.  In exact arithmetic, with an initial investment that is not zero,
    every plotted curve ends at the final growth of its trial: the two
    conversions to a percentage, [(value - initial) / initial * 100] for the
    curves and [value / initial * 100 - 100] for the histogram, agree. *)
Theorem plotted_curve_ends_at_final_growth (p : Params Qc)
    (data : list (list Qc)) (growths : list Qc) :
  INITIAL_INVESTMENT p <> 0 ->
  final_growths p data = Ok growths ->
  Forall2 (fun traj g => last (percent_increase p traj) = Some g) data growths.
Proof.
  intros I G. apply final_growths_each in G.
  eapply Forall2_impl; [exact G|].
  intros traj g (x & L & ->). unfold percent_increase.
  rewrite last_map, L. cbn [option_map]. f_equal.
  cbn [add sub mul div Exact]. field. exact I.
Qed.

Lemma exact_eqb_eq (x y : Qc) : @eqb Qc Exact x y = true <-> x = y.
Proof.
  cbn [eqb Exact]. rewrite Qceq_alt. destruct (x ?= y); split; congruence.
Qed.

Lemma in_combine_seq (l : list Qc) (a j : nat) (x : Qc) :
  In (j, x) (combine (seq a (length l)) l) ->
  (a <= j)%nat /\ nth_error l (j - a) = Some x.
Proof.
  revert a. induction l as [|y l IH]; intros a; cbn [length seq combine];
    [intros []|].
  intros [[= <- <-]|Hin].
  - rewrite Nat.sub_diag. split; [lia | reflexivity].
  - destruct (IH _ Hin) as (L & N). split; [lia|].
    replace (j - a)%nat with (S (j - S a)) by lia. exact N.
Qed.

Lemma count_by_value (l : list Qc) (a : nat) (v : Qc) :
  length (List.filter (fun jx : nat * Qc => @eqb Qc Exact (snd jx) v)
                      (combine (seq a (length l)) l))
  = count_occ Qc_eq_dec l v.
Proof.
  revert a. induction l as [|y l IH]; intros a;
    cbn [length seq combine List.filter count_occ snd]; [reflexivity|].
  destruct (Qc_eq_dec y v) as [E|N].
  - rewrite (proj2 (exact_eqb_eq y v) E). cbn [length]. now rewrite IH.
  - destruct (@eqb Qc Exact y v) eqn:B.
    + apply exact_eqb_eq in B. contradiction.
    + apply IH.
Qed.

Lemma list_count_exact (l : list Qc) (i : nat) (v : Qc) :
  nth_error l i = Some v ->
  list_count l i v = count_occ Qc_eq_dec l v.
Proof.
  intros N. unfold list_count. rewrite <- (count_by_value l 0 v). f_equal.
  apply filter_ext_in. intros [j x] Hin. cbn [fst snd].
  destruct (Nat.eqb_spec j i) as [->|_]; [|reflexivity].
  apply in_combine_seq in Hin as (_ & Hx). rewrite Nat.sub_0_r, N in Hx.
  injection Hx as <-. cbn [orb]. symmetry. now apply exact_eqb_eq.
Qed.

Lemma map_snd_combine_seq (l : list Qc) (a : nat) :
  map snd (combine (seq a (length l)) l) = l.
Proof.
  revert a. induction l as [|y l IH]; intros a; cbn [length seq combine map snd];
    [reflexivity | now rewrite IH].
Qed.

Lemma final_growth_counts_occ (final_growths : list Qc) :
  final_growth_counts final_growths
  = map (count_occ Qc_eq_dec final_growths) final_growths.
Proof.
  unfold final_growth_counts.
  rewrite <- (map_snd_combine_seq final_growths 0) at 4.
  rewrite map_map. apply map_ext_in. intros [i v] Hin. cbn [fst snd].
  apply in_combine_seq in Hin as (_ & N). rewrite Nat.sub_0_r in N.
  now apply list_count_exact.
Qed.

Lemma final_growth_counts_distinct (final_growths : list Qc) :
  List.NoDup final_growths
  <-> Forall (fun c => c = 1%nat) (final_growth_counts final_growths).
Proof.
  rewrite final_growth_counts_occ, (NoDup_count_occ' Qc_eq_dec), List.Forall_forall.
  split.
  - intros D c Hc. apply in_map_iff in Hc as (v & <- & Hin). now apply D.
  - intros F v Hin. apply F, in_map. exact Hin.
Qed.

(** X17.  In exact arithmetic the count of an entry is the number of trials
    that ended with the same final growth, so the counts are all 1 exactly
    when the final growths are pairwise different; a growth reached by
    several trials weighs that many times in each of its entries. *)
Theorem final_growth_counts_multiplicity (final_growths : list Qc) :
  final_growth_counts final_growths
  = map (count_occ Qc_eq_dec final_growths) final_growths
  /\ (List.NoDup final_growths
      <-> Forall (fun c => c = 1%nat) (final_growth_counts final_growths)).
Proof.
  split; [apply final_growth_counts_occ | apply final_growth_counts_distinct].
Qed.

End PlotExact.

(** ** The run in exact arithmetic *)

Section RunExact.

Local Open Scope Qc_scope.

Variable seed : nat -> nat.
Variable p : Params Qc.
Variable returns_of : gmap string (list Qc).

Lemma step_value_factor (value : Qc) (rs : list Qc) :
  step_value p value rs
  = value * (1 + fold_left (fun a x => a + snd (fst x) * snd x)
                           (combine (PORTFOLIO p) rs) 0).
Proof.
  unfold step_value, year_delta. cbn [add mul of_int Exact].
  rewrite (year_delta_factor value (combine (PORTFOLIO p) rs) _ 0).
  replace (Q2Qc (inject_Z 0)) with 0 by (apply Qc_is_canon; reflexivity).
  ring.
Qed.

Lemma year0_value_factor :
  year0_value p
  = INITIAL_INVESTMENT p * fold_left Qcplus (map snd (PORTFOLIO p)) 0.
Proof.
  unfold year0_value. cbn [add mul of_int Exact].
  rewrite (weighted_sum_factor _ _ _ 0).
  replace (Q2Qc (inject_Z 0)) with 0 by (apply Qc_is_canon; reflexivity).
  ring.
Qed.

Section Investment.

Variable v : Qc.
Hypothesis initial_not_zero : INITIAL_INVESTMENT p <> 0.
Hypothesis other_not_zero : v <> 0.

Local Abbreviation k := (v / INITIAL_INVESTMENT p).

Lemma years_from_scaled (n : nat) (value : Qc) (pos : nat) :
  years_from seed (with_investment p v) returns_of (k * value) pos n
  = match years_from seed p returns_of value pos n with
    | Ok vs => Ok (map (Qcmult k) vs)
    | Raise e => Raise e
    end.
Proof.
  revert value pos. induction n as [|n IH]; intros value pos; cbn [years_from];
    [reflexivity|].
  change (PORTFOLIO (with_investment p v)) with (PORTFOLIO p).
  destruct (draw_returns seed returns_of (PORTFOLIO p) pos) as [rs|e];
    cbn [res_bind]; [|reflexivity].
  assert (S : step_value (with_investment p v) (k * value) rs
              = k * step_value p value rs).
  { change (step_value (with_investment p v) (k * value) rs)
      with (step_value p (k * value) rs).
    rewrite !step_value_factor. ring. }
  rewrite S, IH.
  destruct (years_from seed p returns_of _ _ n) as [vs|e]; reflexivity.
Qed.

Lemma year0_value_scaled : year0_value (with_investment p v) = k * year0_value p.
Proof using initial_not_zero.
  rewrite year0_value_factor.
  change (year0_value (with_investment p v))
    with (add (fold_left (fun a item => add a (mul v (snd item)))
                         (PORTFOLIO p) (of_int 0)) (of_int 0)).
  cbn [add mul of_int Exact]. rewrite (weighted_sum_factor _ _ _ 0).
  replace (Q2Qc (inject_Z 0)) with 0 by (apply Qc_is_canon; reflexivity).
  field. exact initial_not_zero.
Qed.

Lemma trials_from_scaled (n pos : nat) :
  trials_from seed (with_investment p v) returns_of pos n
  = match trials_from seed p returns_of pos n with
    | Ok ts => Ok (map (map (Qcmult k)) ts)
    | Raise e => Raise e
    end.
Proof using initial_not_zero.
  revert pos. induction n as [|n IH]; intros pos; cbn [trials_from];
    [reflexivity|].
  unfold trajectory.
  change (YEARS_TO_SIMULATE (with_investment p v)) with (YEARS_TO_SIMULATE p).
  change (PORTFOLIO (with_investment p v)) with (PORTFOLIO p).
  rewrite year0_value_scaled, years_from_scaled.
  destruct (years_from seed p returns_of _ pos _) as [vs|e]; cbn [res_bind];
    [|reflexivity].
  rewrite IH.
  destruct (trials_from seed p returns_of _ n) as [ts|e]; reflexivity.
Qed.

Lemma final_growths_scaled (data : list (list Qc)) :
  final_growths (with_investment p v) (map (map (Qcmult k)) data)
  = final_growths p data.
Proof using initial_not_zero other_not_zero.
  assert (Zv : @eqb Qc Exact v (of_int 0) = false).
  { destruct (@eqb Qc Exact v (of_int 0)) eqn:B; [|reflexivity].
    apply exact_eqb_eq in B. contradiction. }
  assert (Zi : @eqb Qc Exact (INITIAL_INVESTMENT p) (of_int 0) = false).
  { destruct (@eqb Qc Exact (INITIAL_INVESTMENT p) (of_int 0)) eqn:B; [|reflexivity].
    apply exact_eqb_eq in B. contradiction. }
  induction data as [|traj data IH]; cbn [map final_growths]; [reflexivity|].
  unfold py_last, py_div. rewrite last_map.
  change (INITIAL_INVESTMENT (with_investment p v)) with v. rewrite Zv, Zi.
  destruct (last traj) as [x|]; cbn [option_map res_bind]; [|reflexivity].
  rewrite IH. destruct (final_growths p data) as [gs|e]; cbn [res_bind];
    [|reflexivity].
  do 2 f_equal. cbn [sub mul div Exact]. field.
  split; assumption.
Qed.

(** X18.  In exact arithmetic the growth distribution does not depend on
    the amount invested: with the same generator and pools, another initial
    investment (neither is zero) scales every trajectory by the ratio of
    the investments and leaves the final growths as they are. *)
Theorem growth_independent_of_investment (s : State Qc) :
  simulation seed p returns_of initial_state = (Ok tt, s) ->
  exists s',
    simulation seed (with_investment p v) returns_of initial_state = (Ok tt, s')
    /\ data s' = map (map (Qcmult (v / INITIAL_INVESTMENT p))) (data s)
    /\ final_growths (with_investment p v) (data s') = final_growths p (data s).
Proof using initial_not_zero other_not_zero.
  intros S. apply simulation_ok_data in S.
  pose proof (simulation_run seed (with_investment p v) returns_of) as R.
  destruct (simulation seed (with_investment p v) returns_of initial_state)
    as [r s'].
  change (TRIALS (with_investment p v)) with (TRIALS p) in R.
  rewrite trials_from_scaled, S in R. destruct R as (-> & D).
  exists s'. split; [reflexivity|]. split; [exact D|].
  rewrite D. apply final_growths_scaled.
Qed.

End Investment.

End RunExact.

Section NonNegative.

Local Open Scope Qc_scope.

Variable seed : nat -> nat.
Variable p : Params Qc.
Variable returns_of : gmap string (list Qc).

Hypothesis initial_nonneg : 0 <= INITIAL_INVESTMENT p.
Hypothesis weights_nonneg :
  Forall (fun item : Asset Qc * Qc => 0 <= snd item) (PORTFOLIO p).
Hypothesis weights_sum_one : weights_sum p = of_int 1.
Hypothesis no_loss_beyond_all :
  forall item pool, In item (PORTFOLIO p) ->
    returns_of !! ticker (fst item) = Some pool ->
    Forall (fun r => - (1) <= r) pool.

Lemma gain_nonneg (w r : Qc) : 0 <= w -> - (1) <= r -> 0 <= w * r + w.
Proof.
  intros W R. replace (w * r + w) with ((r + 1) * w) by ring.
  replace 0 with (0 * w) by ring.
  apply Qcmult_le_compat_r; [|exact W].
  replace 0 with (- (1) + 1) by ring.
  apply Qcplus_le_compat; [exact R | apply Qcle_refl].
Qed.

Lemma weighted_return_bound (items : list (Asset Qc * Qc)) (rs : list Qc) (b c : Qc) :
  Forall (fun item : Asset Qc * Qc => 0 <= snd item) items ->
  Forall (fun r => - (1) <= r) rs ->
  length rs = length items ->
  b + c <= fold_left (fun a x => a + snd (fst x) * snd x) (combine items rs) b
           + fold_left Qcplus (map snd items) c.
Proof.
  revert rs b c. induction items as [|[a w] items IH]; intros rs b c W R L.
  - cbn. apply Qcle_refl.
  - destruct rs as [|r rs]; [discriminate L|].
    inversion W as [|? ? Hw W']; subst. inversion R as [|? ? Hr R']; subst.
    cbn [combine fold_left map fst snd] in *.
    eapply Qcle_trans; [|apply IH; [exact W' | exact R' | now injection L]].
    replace (b + w * r + (c + w)) with ((b + c) + (w * r + w)) by ring.
    replace (b + c) with ((b + c) + 0) at 1 by ring.
    apply Qcplus_le_compat; [apply Qcle_refl | now apply gain_nonneg].
Qed.

Lemma drawn_returns_bounded (pos : nat) (rs : list Qc) :
  draw_returns seed returns_of (PORTFOLIO p) pos = Ok rs ->
  length rs = length (PORTFOLIO p) /\ Forall (fun r => - (1) <= r) rs.
Proof using no_loss_beyond_all.
  intros D.
  pose proof (draw_returns_outcome seed returns_of (PORTFOLIO p) pos) as O.
  destruct (draw_error returns_of (PORTFOLIO p)) as [e|]; [congruence|].
  destruct O as (rs' & D' & L & Hrs). rewrite D in D'. injection D' as <-.
  split; [exact L|]. apply List.Forall_forall. intros r Hin.
  apply In_nth_error in Hin as (i & Hi).
  assert (Hlt : (i < length (PORTFOLIO p))%nat).
  { rewrite <- L. apply nth_error_Some. congruence. }
  destruct (nth_error (PORTFOLIO p) i) as [item|] eqn:It;
    [|apply nth_error_None in It; lia].
  destruct (Hrs i item It) as (pool & Hp & _ & Hn).
  pose proof (no_loss_beyond_all item pool (nth_error_In _ _ It) Hp) as B.
  rewrite List.Forall_forall in B. apply B.
  eapply nth_error_In. rewrite <- Hn. exact Hi.
Qed.

Lemma step_value_nonneg (value : Qc) (pos : nat) (rs : list Qc) :
  0 <= value ->
  draw_returns seed returns_of (PORTFOLIO p) pos = Ok rs ->
  0 <= step_value p value rs.
Proof using no_loss_beyond_all weights_nonneg weights_sum_one.
  intros V D. destruct (drawn_returns_bounded pos rs D) as (L & B).
  rewrite step_value_factor.
  pose proof (weighted_return_bound (PORTFOLIO p) rs 0 0 weights_nonneg B L) as W.
  unfold weights_sum in weights_sum_one. cbn [add of_int Exact] in weights_sum_one.
  change (Q2Qc (inject_Z 0)) with 0 in weights_sum_one.
  rewrite weights_sum_one in W.
  replace (Q2Qc (inject_Z 1)) with 1 in W by (apply Qc_is_canon; reflexivity).
  rewrite Qcplus_0_l, Qcplus_comm in W.
  pose proof (Qcmult_le_compat_r 0 value _ V W) as M.
  now rewrite Qcmult_0_l in M.
Qed.

Lemma years_from_nonneg (k : nat) (value : Qc) (pos : nat) (vs : list Qc) :
  0 <= value ->
  years_from seed p returns_of value pos k = Ok vs ->
  Forall (fun x => 0 <= x) vs.
Proof using no_loss_beyond_all weights_nonneg weights_sum_one.
  revert value pos vs. induction k as [|k IH]; intros value pos vs V;
    cbn [years_from].
  - intros [= <-]. constructor.
  - destruct (draw_returns seed returns_of (PORTFOLIO p) pos) as [rs|e] eqn:D;
      cbn [res_bind]; [|discriminate].
    pose proof (step_value_nonneg value pos rs V D) as S.
    destruct (years_from seed p returns_of _ _ k) as [vs'|e] eqn:Y;
      cbn [res_bind]; [|discriminate].
    intros [= <-]. constructor; [exact S | eapply IH; eassumption].
Qed.

(** X19.  In exact arithmetic the portfolio value never becomes negative:
    with an initial investment that is not negative, weights that are not
    negative and sum to 1, and pools in which no return is below -1 (a loss
    of more than everything), every value of every trajectory of a
    completed run is at least 0. *)
Theorem values_never_negative (s' : State Qc) :
  simulation seed p returns_of initial_state = (Ok tt, s') ->
  Forall (fun traj => Forall (fun x => 0 <= x) traj) (data s').
Proof using initial_nonneg no_loss_beyond_all weights_nonneg weights_sum_one.
  intros S. apply simulation_ok_data in S.
  apply List.Forall_forall. intros traj Hin.
  apply In_nth_error in Hin as (t & Ht).
  pose proof (trials_from_nth _ _ _ _ _ _ S t traj Ht) as T.
  destruct (trajectory_shape _ _ _ _ _ T) as (vs & -> & Y).
  assert (V0 : 0 <= year0_value p).
  { rewrite year0_value_factor.
    unfold weights_sum in weights_sum_one.
    cbn [add of_int Exact] in weights_sum_one.
    change (Q2Qc (inject_Z 0)) with 0 in weights_sum_one.
    rewrite weights_sum_one.
    replace (Q2Qc (inject_Z 1)) with 1 by (apply Qc_is_canon; reflexivity).
    now rewrite Qcmult_1_r. }
  constructor; [exact V0 | eapply years_from_nonneg; eassumption].
Qed.

End NonNegative.

(** ** More trials *)

Section MoreTrials.

Context {num : Type} `{Arith num}.
Variable seed : nat -> nat.
Variable p : Params num.
Variable returns_of : gmap string (list num).

Lemma trials_from_more (k m pos : nat) (ts : list (list num)) :
  trials_from seed p returns_of pos (k + m) = Ok ts ->
  trials_from seed p returns_of pos k = Ok (firstn k ts).
Proof.
  revert pos ts. induction k as [|k IH]; intros pos ts; cbn [Nat.add trials_from].
  - intros _. reflexivity.
  - destruct (trajectory seed p returns_of pos) as [t|e]; cbn [res_bind];
      [|discriminate].
    destruct (trials_from seed p returns_of _ (k + m)) as [ts'|e] eqn:T;
      cbn [res_bind]; [|discriminate].
    intros [= <-]. rewrite (IH _ _ T). reflexivity.
Qed.

Lemma years_from_with_trials (n k : nat) (value : num) (pos : nat) :
  years_from seed (with_trials p n) returns_of value pos k
  = years_from seed p returns_of value pos k.
Proof.
  revert value pos. induction k as [|k IH]; intros value pos; cbn [years_from];
    [reflexivity|].
  change (PORTFOLIO (with_trials p n)) with (PORTFOLIO p).
  destruct (draw_returns seed returns_of (PORTFOLIO p) pos) as [rs|e];
    cbn [res_bind]; [|reflexivity].
  change (step_value (with_trials p n) value rs) with (step_value p value rs).
  now rewrite IH.
Qed.

Lemma trials_from_with_trials (n k pos : nat) :
  trials_from seed (with_trials p n) returns_of pos k
  = trials_from seed p returns_of pos k.
Proof.
  revert pos. induction k as [|k IH]; intros pos; cbn [trials_from];
    [reflexivity|].
  unfold trajectory.
  change (YEARS_TO_SIMULATE (with_trials p n)) with (YEARS_TO_SIMULATE p).
  change (PORTFOLIO (with_trials p n)) with (PORTFOLIO p).
  change (year0_value (with_trials p n)) with (year0_value p).
  now rewrite years_from_with_trials, IH.
Qed.

(** X20.  Running more trials only adds trajectories: with the same
    generator, pools and other parameters, the matrix of a completed run of
    [n + m] trials starts with the matrix of the run of [n] trials, which
    completes too. *)
Theorem more_trials_extend (n m : nat) (s' : State num) :
  simulation seed (with_trials p (n + m)) returns_of initial_state = (Ok tt, s') ->
  exists s,
    simulation seed (with_trials p n) returns_of initial_state = (Ok tt, s)
    /\ data s = firstn n (data s').
Proof.
  intros S. apply simulation_ok_data in S.
  pose proof (simulation_run seed (with_trials p n) returns_of) as R.
  destruct (simulation seed (with_trials p n) returns_of initial_state) as [r s].
  change (TRIALS (with_trials p (n + m))) with (n + m) in S.
  change (TRIALS (with_trials p n)) with n in R.
  rewrite trials_from_with_trials in S, R.
  rewrite (trials_from_more _ _ _ _ S) in R.
  destruct R as (-> & D). now exists s.
Qed.

End MoreTrials.

(** ** The further theorems at concrete inputs *)

Ltac qc_order :=
  unfold Qcle, Qclt, Qle, Qlt; vm_compute; first [reflexivity | discriminate].

Ltac qc_apart :=
  let E := fresh in
  intros E; apply (f_equal this) in E; vm_compute in E; discriminate E.

Lemma yearly_returns_outcome_witness :
  (exists yr, yearly_returns demo = Ok yr)
  /\ yearly_returns no_history = Raise IndexError.
Proof.
  split.
  - apply (proj1 (yearly_returns_outcome demo)).
    repeat constructor; discriminate.
  - apply (proj2 (yearly_returns_outcome no_history)).
    apply Exists_cons_tl, Exists_cons_hd. reflexivity.
Defined.

Lemma yearly_returns_lookup_witness :
  exists pool, get_yearly_returns ia_daq = Ok pool
               /\ demo_returns !! "0P0000ZEJ5.TO"%string = Some pool.
Proof.
  assert (Y : yearly_returns demo = Ok demo_returns) by (vm_compute; reflexivity).
  apply (proj2 (yearly_returns_lookup demo demo_returns Y)
           [] (ia_daq, 0.7%float) [(aapl, 0.3%float)]).
  - reflexivity.
  - repeat constructor. discriminate.
Defined.

Lemma simulation_failure_witness :
  data (snd (simulation linear_seed (short_history 1)
               {[ "ETH-USD"%string := [] ]} initial_state)) = []
  /\ 1 <= TRIALS (short_history 1) /\ 1 <= YEARS_TO_SIMULATE (short_history 1)
  /\ exists item, In item (PORTFOLIO (short_history 1))
       /\ ((IndexError = KeyError
            /\ ({[ "ETH-USD"%string := [] ]} : gmap string (list float))
               !! ticker (fst item) = None)
           \/ (IndexError = IndexError
               /\ ({[ "ETH-USD"%string := [] ]} : gmap string (list float))
                  !! ticker (fst item) = Some [])).
Proof.
  apply (simulation_failure linear_seed (short_history 1)
           {[ "ETH-USD"%string := [] ]} IndexError).
  vm_compute; reflexivity.
Defined.

Lemma data_and_growths_outcome_witness :
  exists data growths,
    simulated_data linear_seed demo = Ok data
    /\ final_growths demo data = Ok growths.
Proof.
  apply (proj2 (proj2 (data_and_growths_outcome linear_seed demo))).
  - repeat constructor; cbn; lia.
  - vm_compute; reflexivity.
Defined.

Lemma random_choice_calls_witness :
  rng demo_state = TRIALS demo * (YEARS_TO_SIMULATE demo * length (PORTFOLIO demo)).
Proof.
  apply (random_choice_calls demo demo_returns linear_seed demo_state).
  vm_compute; reflexivity.
Defined.

Lemma zero_years_run_witness :
  exists s', simulation linear_seed (short_history 0) ∅ initial_state = (Ok tt, s')
             /\ data s' = repeat [year0_value (short_history 0)]
                                 (TRIALS (short_history 0))
             /\ rng s' = 0.
Proof. apply (zero_years_run (short_history 0) ∅ linear_seed). reflexivity. Defined.

Lemma growth_probability_permutation_witness :
  growth_probability [15; 5; 10]%float (Some 5%float) None
  = growth_probability [5; 10; 15]%float (Some 5%float) None.
Proof.
  apply growth_probability_permutation.
  apply (Permutation_cons_append [5; 10]%float 15%float).
Defined.

Lemma growth_probability_range_witness :
  exists v : Qc,
    growth_probability [Q2Qc 1; Q2Qc 2; Q2Qc 3] None (Some (Q2Qc 2)) = Ok v
    /\ (0 <= v)%Qc /\ (v <= of_int 100)%Qc.
Proof.
  apply (growth_probability_range [Q2Qc 1; Q2Qc 2; Q2Qc 3] None (Some (Q2Qc 2))).
  - discriminate.
  - right. discriminate.
Defined.

Lemma growth_probability_monotone_witness :
  exists below_X below_Y above_X above_Y : Qc,
    growth_probability [Q2Qc 1; Q2Qc 2; Q2Qc 3] None (Some (Q2Qc 2)) = Ok below_X
    /\ growth_probability [Q2Qc 1; Q2Qc 2; Q2Qc 3] None (Some (Q2Qc 3)) = Ok below_Y
    /\ growth_probability [Q2Qc 1; Q2Qc 2; Q2Qc 3] (Some (Q2Qc 2)) None = Ok above_X
    /\ growth_probability [Q2Qc 1; Q2Qc 2; Q2Qc 3] (Some (Q2Qc 3)) None = Ok above_Y
    /\ (below_X <= below_Y)%Qc /\ (above_Y <= above_X)%Qc.
Proof.
  apply (growth_probability_monotone [Q2Qc 1; Q2Qc 2; Q2Qc 3] (Q2Qc 2) (Q2Qc 3)).
  - discriminate.
  - qc_order.
Defined.

Lemma growth_probability_overlap_witness :
  exists below above between : Qc,
    growth_probability [Q2Qc 1; Q2Qc 2; Q2Qc 3] None (Some (Q2Qc 3)) = Ok below
    /\ growth_probability [Q2Qc 1; Q2Qc 2; Q2Qc 3] (Some (Q2Qc 1)) None = Ok above
    /\ growth_probability [Q2Qc 1; Q2Qc 2; Q2Qc 3] (Some (Q2Qc 1)) (Some (Q2Qc 3))
       = Ok between
    /\ (below + above - between = of_int 100)%Qc.
Proof.
  apply (growth_probability_overlap [Q2Qc 1; Q2Qc 2; Q2Qc 3] (Q2Qc 1) (Q2Qc 3)).
  - discriminate.
  - qc_order.
Defined.

Lemma growth_probability_reversed_bounds_witness :
  growth_probability [Q2Qc 1; Q2Qc 2; Q2Qc 3] (Some (Q2Qc 3)) (Some (Q2Qc 1))
  = Ok (Q2Qc 0).
Proof.
  apply (growth_probability_reversed_bounds [Q2Qc 1; Q2Qc 2; Q2Qc 3]
           (Q2Qc 3) (Q2Qc 1)).
  - discriminate.
  - qc_order.
Defined.

Lemma closes_recovered_from_returns_witness :
  prices_from (Q2Qc 100) (pct_change_from (Q2Qc 100) [Q2Qc 110; Q2Qc 99])
  = [Q2Qc 100; Q2Qc 110; Q2Qc 99].
Proof.
  apply (closes_recovered_from_returns
           (mkAsset "AAPL" [Q2Qc 100; Q2Qc 110; Q2Qc 99])).
  - reflexivity.
  - repeat constructor; qc_apart.
  - reflexivity.
Defined.

Lemma returns_scale_invariant_witness :
  get_yearly_returns
    (mkAsset "AAPL" (map (Qcmult (Q2Qc 2)) [Q2Qc 100; Q2Qc 110; Q2Qc 99]))
  = get_yearly_returns (mkAsset "AAPL" [Q2Qc 100; Q2Qc 110; Q2Qc 99]).
Proof.
  apply returns_scale_invariant.
  - qc_apart.
  - repeat constructor; qc_apart.
Defined.

Lemma plotted_curve_ends_at_final_growth_witness :
  Forall2 (fun traj g => last (percent_increase demo_exact traj) = Some g)
          (data demo_exact_state)
          (match final_growths demo_exact (data demo_exact_state) with
           | Ok gs => gs
           | Raise _ => []
           end).
Proof.
  apply plotted_curve_ends_at_final_growth.
  - qc_apart.
  - vm_compute; reflexivity.
Defined.

Lemma growth_independent_of_investment_witness :
  exists s',
    simulation linear_seed (with_investment demo_exact (Q2Qc 3))
               demo_exact_returns initial_state = (Ok tt, s')
    /\ data s' = map (map (Qcmult (Q2Qc 3 / INITIAL_INVESTMENT demo_exact)))
                     (data demo_exact_state)
    /\ final_growths (with_investment demo_exact (Q2Qc 3)) (data s')
       = final_growths demo_exact (data demo_exact_state).
Proof.
  apply (growth_independent_of_investment linear_seed demo_exact demo_exact_returns
           (Q2Qc 3)).
  - qc_apart.
  - qc_apart.
  - vm_compute; reflexivity.
Defined.

Lemma values_never_negative_witness :
  Forall (fun traj => Forall (fun x => (0 <= x)%Qc) traj) (data demo_exact_state).
Proof.
  apply (values_never_negative linear_seed demo_exact demo_exact_returns).
  - qc_order.
  - repeat constructor; qc_order.
  - apply Qc_is_canon; reflexivity.
  - intros item pool [<-|[<-|[]]] L; vm_compute in L;
      apply (inj Some) in L; subst pool; repeat constructor; qc_order.
  - vm_compute; reflexivity.
Defined.

Lemma more_trials_extend_witness :
  exists s,
    simulation linear_seed (with_trials demo 1) demo_returns initial_state = (Ok tt, s)
    /\ data s
       = firstn 1 (data (snd (simulation linear_seed (with_trials demo (1 + 1))
                                demo_returns initial_state))).
Proof.
  apply (more_trials_extend linear_seed demo demo_returns 1 1).
  vm_compute; reflexivity.
Defined.

(** ** The total weight of the histogram *)

Section HistogramWeight.

Local Open Scope Qc_scope.

Lemma exact_of_int_inj (a b : Z) : @of_int Qc Exact a = @of_int Qc Exact b -> a = b.
Proof.
  cbn [of_int Exact]. intros E. apply Q2Qc_eq_iff in E.
  unfold Qeq in E. cbn in E. lia.
Qed.

Lemma frequencies_sum (p : Params Qc) (counts : list nat) (acc : Qc) :
  fold_left Qcplus (final_growth_frequencies p counts) acc
  = acc + percentage (list_sum counts) (TRIALS p).
Proof.
  revert acc. induction counts as [|c counts IH]; intros acc;
    cbn [final_growth_frequencies map fold_left list_sum].
  - rewrite percentage_none. ring.
  - fold (final_growth_frequencies p counts). rewrite IH.
    change (list_sum (c :: counts)) with (c + list_sum counts)%nat.
    unfold percentage. cbn [mul div Exact].
    rewrite Nat2Z.inj_add, exact_of_int_add. unfold Qcdiv. ring.
Qed.

Lemma sum_of_positive_counts (counts : list nat) :
  Forall (fun c => (1 <= c)%nat) counts ->
  (length counts <= list_sum counts)%nat
  /\ (list_sum counts = length counts <-> Forall (fun c => c = 1%nat) counts).
Proof.
  induction 1 as [|c counts Hc F IH];
    [|change (list_sum (c :: counts)) with (c + list_sum counts)%nat];
    cbn [length].
  - split; [lia|]. split; [constructor | reflexivity].
  - destruct IH as (L & E). split; [lia|]. split.
    + intros S. assert (c = 1%nat) by lia. constructor; [assumption|].
      apply E. lia.
    + intros A. inversion A as [|? ? -> A']; subst. apply E in A'. lia.
Qed.

Lemma percentage_injective (a b n : nat) :
  n <> 0%nat -> @percentage Qc Exact a n = @percentage Qc Exact b n -> a = b.
Proof.
  intros N S. unfold percentage in S. cbn [mul div Exact] in S.
  assert (Z : @of_int Qc Exact (Z.of_nat n) <> 0)
    by (apply exact_of_int_neq_0; lia).
  assert (C : @of_int Qc Exact 100 <> 0) by (apply exact_of_int_neq_0; lia).
  assert (X : forall x : Qc,
            x = x / @of_int Qc Exact (Z.of_nat n) * @of_int Qc Exact 100
                * @of_int Qc Exact (Z.of_nat n) / @of_int Qc Exact 100)
    by (intros x; field; split; assumption).
  apply Nat2Z.inj, exact_of_int_inj.
  rewrite (X (@of_int Qc Exact (Z.of_nat a))), S, <- X. reflexivity.
Qed.

(** X21.  In exact arithmetic the weights handed to the histogram,
    [count / TRIALS * 100] for each trial, add up to 100 exactly when no
    two trials end with the same final growth; a growth that several
    trials share is weighted once per pair of them. *)
Theorem histogram_weights_total (p : Params Qc) (final_growths : list Qc) :
  TRIALS p = length final_growths ->
  final_growths <> [] ->
  fold_left Qcplus
    (final_growth_frequencies p (final_growth_counts final_growths)) 0
  = of_int 100
  <-> List.NoDup final_growths.
Proof.
  intros T N.
  destruct (final_growth_counts_each final_growths) as (L & B).
  assert (P : Forall (fun c => (1 <= c)%nat) (final_growth_counts final_growths)).
  { eapply Forall_impl; [exact B|]. intros c Hc. cbn beta in Hc. lia. }
  destruct (sum_of_positive_counts _ P) as (_ & E).
  rewrite frequencies_sum, Qcplus_0_l, T.
  rewrite (final_growth_counts_distinct final_growths), <- E, L.
  split.
  - intros S. rewrite <- (percentage_all (length final_growths)) in S
      by now apply length_not_zero.
    exact (percentage_injective _ _ _ (length_not_zero _ N) S).
  - intros ->. now apply percentage_all, length_not_zero.
Qed.

End HistogramWeight.

Lemma histogram_weights_total_witness :
  fold_left Qcplus
    (final_growth_frequencies demo_exact (final_growth_counts [Q2Qc 1; Q2Qc 2]))
    (Q2Qc 0)
  = of_int 100
  <-> List.NoDup [Q2Qc 1; Q2Qc 2].
Proof.
  apply (histogram_weights_total demo_exact [Q2Qc 1; Q2Qc 2]).
  - reflexivity.
  - discriminate.
Defined.
